(** * ApartmentModal: a shallow embedding of [src/components/ApartmentModal.tsx]

    The component owns two pieces of view state (the carousel index and the
    lightbox flag), formats a handful of display values and reacts to
    key presses and clicks.  The embedding keeps the names of the source:
    [toNumber], [formatPrice], [formatArea], [onKey], [handleBackdropClick],
    [isCommercial], [isStudio], [currentImageIndex], [lightboxOpen].

    JavaScript numbers that only ever hold array positions are integers here
    ([Z]); the remainder operator [%] truncates towards zero and is [Z.rem].
    Amounts of money stay abstract: what the host does with them
    ([Number], [Number.isNaN], [Intl.NumberFormat], [toLocaleString]) is an
    interface, [Platform], with one executable instance for evaluation. *)

From Stdlib Require Import ZArith List String Ascii Bool Lia.
From Stdlib Require Import DecimalString.
Import ListNotations.

Local Open Scope string_scope.
Local Open Scope list_scope.

(** ** String primitives of the host language *)

Module Js.

Definition isUpperAscii (c : ascii) : bool :=
  (65 <=? nat_of_ascii c)%nat && (nat_of_ascii c <=? 90)%nat.

Definition lowerChar (c : ascii) : ascii :=
  if isUpperAscii c then ascii_of_nat (nat_of_ascii c + 32) else c.

(** [String.prototype.toLowerCase] on the bytes of the string.  Only the
    letters A-Z are mapped; bytes of 128 and above (the UTF-8 encoding of
    everything outside ASCII) are left alone.  No code point outside ASCII
    lower-cases to a letter of "shop", "office" or "studio", so the
    comparisons of the component are not affected. *)
Fixpoint toLowerCase (s : string) : string :=
  match s with
  | EmptyString => EmptyString
  | String c rest => String (lowerChar c) (toLowerCase rest)
  end.

(** [s.replace(/,/g, "")]: every comma is dropped. *)
Fixpoint removeCommas (s : string) : string :=
  match s with
  | EmptyString => EmptyString
  | String c rest =>
      if Ascii.eqb c "," then removeCommas rest
      else String c (removeCommas rest)
  end.

(** [arr.includes(x)] on an array of strings. *)
Definition includes (arr : list string) (x : string) : bool :=
  existsb (String.eqb x) arr.

(** The remainder operator on integers: the sign follows the dividend. *)
Definition remainder (a b : Z) : Z := Z.rem a b.

End Js.

(** ** The numeric primitives the component consumes *)

Class Platform := {
  (** the values of type [number] *)
  Num : Type;
  (** [Number.isNaN] *)
  isNaN : Num -> bool;
  (** [Number(s)] applied to a string *)
  toNumeric : string -> Num;
  (** [new Intl.NumberFormat("en-PK", {style: "currency", currency: "PKR",
      minimumFractionDigits: 0}).format] *)
  Intl_format : Num -> string;
  (** [Number.prototype.toLocaleString] without arguments *)
  toLocaleString : Num -> string
}.

Section Component.

Context {P : Platform}.

(** The argument type [number | string | null | undefined]. *)
Inductive value :=
| VUndefined
| VNull
| VNumber (n : Num)
| VString (s : string).

(** [toNumber]: absent and empty give [null]; a number is returned as it
    is; a string loses its commas and goes through [Number], and a [NaN]
    result gives [null]. *)
Definition toNumber (val : value) : option Num :=
  match val with
  | VUndefined => None
  | VNull => None
  | VNumber n => Some n
  | VString s =>
      if s =? "" then None
      else
        let parsed := toNumeric (Js.removeCommas s) in
        if isNaN parsed then None else Some parsed
  end.

(** [formatPrice].  In the [n == null] branch the test
    [price && typeof price === "string"] holds exactly for a non-empty
    string. *)
Definition formatPrice (price : value) : string :=
  match toNumber price with
  | None =>
      match price with
      | VString s => if s =? "" then "N/A" else s
      | _ => "N/A"
      end
  | Some n => Intl_format n
  end.

(** [formatArea], called as [formatArea(apartment.area ?? null)]. *)
Definition formatArea (area : option Num) : string :=
  match area with
  | None => "N/A"
  | Some a => (toLocaleString a ++ " sq ft")%string
  end.

(** *** The unit record

    The declaration of [Apartment] lives in [@/types]; the fields below are
    the ones the component reads.  [id] and [floorId] only feed the text of
    the title and are left out. *)

Inductive Status := available | sold.

Record InstallmentOptions := {
  booking : value;
  allotmentConfirmation : value;
  monthlyInstallments : value;
  halfYearly : value;
  onPossession : value;
  total : value
}.

Record Apartment := {
  number : string;
  type : string;
  status : Status;
  bedrooms : Z;
  bathrooms : option Z;
  area : option Num;
  price : value;
  installmentOptions : option InstallmentOptions;
  renders : option (list string)
}.

(** [apartment.renders!.length]; the guards of the component keep it from
    being read when [renders] is absent. *)
Definition rendersLength (a : Apartment) : Z :=
  match renders a with
  | Some l => Z.of_nat (List.length l)
  | None => 0
  end.

(** The truth value of [apartment.renders?.length]. *)
Definition hasRenders (a : Apartment) : bool :=
  match renders a with
  | Some l => negb (Z.of_nat (List.length l) =? 0)%Z
  | None => false
  end.

(** [apartment.renders[i]]: [undefined] outside the array. *)
Definition renderAt (a : Apartment) (i : Z) : option string :=
  match renders a with
  | Some l => if (i <? 0)%Z then None else nth_error l (Z.to_nat i)
  | None => None
  end.

(** *** Classification of the type string *)

Definition isCommercial (a : Apartment) : bool :=
  Js.includes ["shop"; "office"] (Js.toLowerCase (type a)).

Definition isStudio (a : Apartment) : bool :=
  Js.toLowerCase (type a) =? "studio".

(** The three-valued tag the two flags stand for. *)
Inductive Classification := Commercial | Studio | Residential.

Definition classifyUnit (a : Apartment) : Classification :=
  if isCommercial a then Commercial
  else if isStudio a then Studio
  else Residential.

(** *** View state *)

Record State := {
  currentImageIndex : Z;
  lightboxOpen : bool
}.

(** [useState(0)] and [useState(false)]. *)
Definition initialState : State :=
  {| currentImageIndex := 0; lightboxOpen := false |}.

(** [(i) => (i + 1) % apartment.renders!.length] *)
Definition nextIndex (len i : Z) : Z := Js.remainder (i + 1) len.

(** [(i) => (i - 1 + apartment.renders!.length) % apartment.renders!.length] *)
Definition prevIndex (len i : Z) : Z := Js.remainder (i - 1 + len) len.

(** *** What is on screen *)

Inductive Element :=
| MainOverlay          (* outer motion.div, role "presentation" *)
| DialogPanel          (* motion.div, role "dialog" *)
| PanelContent         (* headings, text, panels: nothing with a handler *)
| CloseButton          (* "Close apartment details" *)
| GalleryImage
| PrevButton
| NextButton
| ExpandButton
| ContactLink
| LightboxOverlay      (* second motion.div *)
| LightboxFrame        (* the div around the fullscreen image *)
| LightboxImage
| LightboxCloseButton.

Definition Element_eqb (x y : Element) : bool :=
  match x, y with
  | MainOverlay, MainOverlay
  | DialogPanel, DialogPanel
  | PanelContent, PanelContent
  | CloseButton, CloseButton
  | GalleryImage, GalleryImage
  | PrevButton, PrevButton
  | NextButton, NextButton
  | ExpandButton, ExpandButton
  | ContactLink, ContactLink
  | LightboxOverlay, LightboxOverlay
  | LightboxFrame, LightboxFrame
  | LightboxImage, LightboxImage
  | LightboxCloseButton, LightboxCloseButton => true
  | _, _ => false
  end.

Inductive DetailLine :=
| BedroomLine (count : Z)
| BathroomLine (count : Z + string)
| AreaLine (text : string)
| PriceLine (text : string).

Inductive PaymentOptions :=
| Breakdown (rows : list (string * string))
| ContactPrompt (text : string).

Record Gallery := {
  galleryHeading : string;
  disclaimer : string;
  imageSrc : option string;
  controls : list Element
}.

Record Lightbox := {
  fullscreenSrc : option string
}.

Record View := {
  detailsHeading : string;
  details : list DetailLine;
  payment : PaymentOptions;
  gallery : option Gallery;
  lightbox : option Lightbox
}.

(** [cond && <line/>] contributes the line or nothing. *)
Definition when {A : Type} (cond : bool) (x : A) : list A :=
  if cond then [x] else [].

Definition renderDetails (a : Apartment) : list DetailLine :=
  when (negb (isCommercial a) && negb (isStudio a)) (BedroomLine (bedrooms a))
  ++ when (negb (isCommercial a))
       (BathroomLine match bathrooms a with
                     | Some b => inl b
                     | None => inr "N/A"
                     end)
  ++ [AreaLine (formatArea (area a))]
  ++ when (negb (isCommercial a)) (PriceLine (formatPrice (price a))).

Definition renderPayment (a : Apartment) : PaymentOptions :=
  match installmentOptions a with
  | Some plan =>
      Breakdown
        [ ("Booking:", formatPrice (booking plan));
          ("Allotment Confirmation:", formatPrice (allotmentConfirmation plan));
          ("Monthly Installments:", formatPrice (monthlyInstallments plan));
          ("Half Yearly:", formatPrice (halfYearly plan));
          ("On Possession:", formatPrice (onPossession plan));
          ("Total:", formatPrice (total plan)) ]
  | None =>
      ContactPrompt "Contact us for payment options and financing details."
  end.

(** [apartment.renders && apartment.renders.length > 0 && (...)] *)
Definition renderGallery (a : Apartment) (s : State) : option Gallery :=
  match renders a with
  | Some l =>
      if (0 <? Z.of_nat (List.length l))%Z then
        Some {| galleryHeading :=
                  if (1 <? Z.of_nat (List.length l))%Z then "Image Gallery"
                  else "Render & Image";
                disclaimer :=
                  "These images are for illustration purposes only and don't represent the actual apartment.";
                imageSrc := renderAt a (currentImageIndex s);
                controls :=
                  (if (1 <? Z.of_nat (List.length l))%Z
                   then [PrevButton; NextButton] else [])
                  ++ [ExpandButton] |}
      else None
  | None => None
  end.

(** [lightboxOpen && apartment.renders && (...)]: an array is truthy even
    when it is empty. *)
Definition renderLightbox (a : Apartment) (s : State) : option Lightbox :=
  if lightboxOpen s then
    match renders a with
    | Some _ => Some {| fullscreenSrc := renderAt a (currentImageIndex s) |}
    | None => None
    end
  else None.

Definition render (a : Apartment) (s : State) : View :=
  {| detailsHeading :=
       if isCommercial a then "Unit Details" else "Apartment Details";
     details := renderDetails a;
     payment := renderPayment a;
     gallery := renderGallery a s;
     lightbox := renderLightbox a s |}.

Definition isSome {A : Type} (o : option A) : bool :=
  match o with Some _ => true | None => false end.

(** Which elements the rendered tree contains. *)
Definition mounted (v : View) (e : Element) : bool :=
  match e with
  | MainOverlay | DialogPanel | PanelContent | CloseButton | ContactLink =>
      true
  | GalleryImage => isSome (gallery v)
  | PrevButton | NextButton | ExpandButton =>
      match gallery v with
      | Some g => existsb (Element_eqb e) (controls g)
      | None => false
      end
  | LightboxOverlay | LightboxFrame | LightboxImage | LightboxCloseButton =>
      isSome (lightbox v)
  end.

Definition hasBedroomLine (v : View) : bool :=
  existsb (fun d => match d with BedroomLine _ => true | _ => false end)
          (details v).

Definition hasBathroomLine (v : View) : bool :=
  existsb (fun d => match d with BathroomLine _ => true | _ => false end)
          (details v).

Definition hasPriceLine (v : View) : bool :=
  existsb (fun d => match d with PriceLine _ => true | _ => false end)
          (details v).

(** *** Handlers

    A handler closes over the state of the render it was created in and
    asks for updates; the updates are applied in the order they were
    requested.  [CallOnClose] is the call of the [onClose] prop. *)

Inductive Action :=
| SetLightboxOpen (b : bool)
| SetCurrentImageIndex (f : Z -> Z)
| CallOnClose.

Definition onKey (a : Apartment) (s : State) (key : string) : list Action :=
  (if key =? "Escape" then
     if lightboxOpen s then [SetLightboxOpen false] else [CallOnClose]
   else [])
  ++ (if (key =? "ArrowRight") && hasRenders a
      then [SetCurrentImageIndex (nextIndex (rendersLength a))] else [])
  ++ (if (key =? "ArrowLeft") && hasRenders a
      then [SetCurrentImageIndex (prevIndex (rendersLength a))] else []).

(** [handleBackdropClick]: [e.target === e.currentTarget] decides. *)
Definition handleBackdropClick (s : State) (target currentTarget : Element)
  : list Action :=
  if Element_eqb target currentTarget then
    if lightboxOpen s then [SetLightboxOpen false] else [CallOnClose]
  else [].

(** The [onClick] prop of each element, run with [currentTarget] the
    element itself. *)
Definition onClick (a : Apartment) (s : State) (target currentTarget : Element)
  : list Action :=
  match currentTarget with
  | MainOverlay => handleBackdropClick s target currentTarget
  | LightboxOverlay => handleBackdropClick s target currentTarget
  | CloseButton => [CallOnClose]
  | GalleryImage => [SetLightboxOpen true]
  | ExpandButton => [SetLightboxOpen true]
  | PrevButton => [SetCurrentImageIndex (prevIndex (rendersLength a))]
  | NextButton => [SetCurrentImageIndex (nextIndex (rendersLength a))]
  | LightboxCloseButton => [SetLightboxOpen false]
  | DialogPanel | PanelContent | ContactLink
  | LightboxFrame | LightboxImage => []
  end.

(** The elements a click bubbles through after its target, innermost
    first.  Wrappers without a handler between an element and the panel
    are not listed. *)
Definition ancestors (e : Element) : list Element :=
  match e with
  | MainOverlay => []
  | DialogPanel => [MainOverlay]
  | PanelContent | CloseButton | GalleryImage | PrevButton | NextButton
  | ExpandButton | ContactLink => [DialogPanel; MainOverlay]
  | LightboxOverlay => []
  | LightboxFrame => [LightboxOverlay]
  | LightboxImage | LightboxCloseButton => [LightboxFrame; LightboxOverlay]
  end.

Definition click (a : Apartment) (s : State) (target : Element)
  : list Action :=
  flat_map (onClick a s target) (target :: ancestors target).

Inductive Event :=
| KeyDown (key : string)
| Click (target : Element).

Definition handle (a : Apartment) (s : State) (ev : Event) : list Action :=
  match ev with
  | KeyDown key => onKey a s key
  | Click target => click a s target
  end.

(** A state together with the number of times [onClose] has been called. *)
Definition perform (act : Action) (w : State * nat) : State * nat :=
  match act with
  | SetLightboxOpen b =>
      ({| currentImageIndex := currentImageIndex (fst w);
          lightboxOpen := b |}, snd w)
  | SetCurrentImageIndex f =>
      ({| currentImageIndex := f (currentImageIndex (fst w));
          lightboxOpen := lightboxOpen (fst w) |}, snd w)
  | CallOnClose => (fst w, S (snd w))
  end.

Definition performAll (acts : list Action) (w : State * nat) : State * nat :=
  fold_left (fun w act => perform act w) acts w.

Definition step (a : Apartment) (s : State) (ev : Event) : State * nat :=
  performAll (handle a s ev) (s, 0%nat).

(** The key listener sits on the document; a click needs its target on
    screen. *)
Definition enabled (a : Apartment) (s : State) (ev : Event) : bool :=
  match ev with
  | KeyDown _ => true
  | Click target => mounted (render a s) target
  end.

Inductive reachable (a : Apartment) : State -> Prop :=
| reach_init : reachable a initialState
| reach_step : forall s ev,
    reachable a s -> enabled a s ev = true ->
    reachable a (fst (step a s ev)).

(** The state after a list of events, and the calls of [onClose] made on
    the way. *)
Fixpoint runEvents (a : Apartment) (evs : list Event) (w : State * nat)
  : State * nat :=
  match evs with
  | [] => w
  | ev :: rest =>
      let r := step a (fst w) ev in
      runEvents a rest (fst r, (snd w + snd r)%nat)
  end.

(** *** Vocabulary of the properties *)

Definition isOverlay (e : Element) : bool :=
  match e with
  | MainOverlay | LightboxOverlay => true
  | _ => false
  end.

Definition descendantOf (target overlay : Element) : bool :=
  existsb (Element_eqb overlay) (ancestors target).

(** The controls whose own handler sets the lightbox flag. *)
Definition togglesLightbox (e : Element) : bool :=
  match e with
  | GalleryImage | ExpandButton | LightboxCloseButton => true
  | _ => false
  end.

Definition keepsIndexBelow (len : Z) (act : Action) : Prop :=
  match act with
  | SetCurrentImageIndex f =>
      forall i, (0 <= i < len)%Z -> (0 <= f i < len)%Z
  | _ => True
  end.

Definition opensLightbox (act : Action) : bool :=
  match act with
  | SetLightboxOpen true => true
  | _ => false
  end.

(** [renders] is a non-empty array of length [n]. *)
Definition rendersOfLength (a : Apartment) (n : Z) : Prop :=
  exists l, renders a = Some l /\ l <> [] /\ n = Z.of_nat (List.length l).

(** [renders] is missing or an empty array. *)
Definition noRenders (a : Apartment) : Prop :=
  renders a = None \/ renders a = Some [].

(** A monetary field that is not set: [undefined] or [null]. *)
Definition absent (v : value) : Prop :=
  v = VUndefined \/ v = VNull.

Definition allAbsent (plan : InstallmentOptions) : Prop :=
  absent (booking plan)
  /\ absent (allotmentConfirmation plan)
  /\ absent (monthlyInstallments plan)
  /\ absent (halfYearly plan)
  /\ absent (onPossession plan)
  /\ absent (total plan).

End Component.


Arguments value : clear implicits.
Arguments value {P}.

(** ** An executable platform: integral amounts

    Amounts are [NaN] or an integer; [Number] is ECMAScript's StringToNumber
    on optionally signed decimal integers (white space trimmed, the empty
    string is 0) and [NaN] on every other string, so fractions, exponents,
    radix prefixes and [Infinity] are outside this instance. *)

Module IntegerPlatform.

Inductive jsnum :=
| NaN
| Int (z : Z).

Definition isNaN (n : jsnum) : bool :=
  match n with
  | NaN => true
  | Int _ => false
  end.

Definition isWhiteSpace (c : ascii) : bool :=
  let n := nat_of_ascii c in
  ((n =? 32) || (n =? 9) || (n =? 10) || (n =? 11) || (n =? 12) || (n =? 13))%nat.

Fixpoint trimStart (l : list ascii) : list ascii :=
  match l with
  | [] => []
  | c :: rest => if isWhiteSpace c then trimStart rest else l
  end.

Definition trim (l : list ascii) : list ascii :=
  rev (trimStart (rev (trimStart l))).

Definition digitValue (c : ascii) : option Z :=
  let n := nat_of_ascii c in
  if ((48 <=? n) && (n <=? 57))%nat then Some (Z.of_nat (n - 48)) else None.

Fixpoint digits (l : list ascii) (acc : Z) : option Z :=
  match l with
  | [] => Some acc
  | c :: rest =>
      match digitValue c with
      | Some d => digits rest (10 * acc + d)%Z
      | None => None
      end
  end.

Definition unsignedInteger (l : list ascii) : jsnum :=
  match l with
  | [] => NaN
  | _ => match digits l 0%Z with
         | Some z => Int z
         | None => NaN
         end
  end.

Definition toNumeric (s : string) : jsnum :=
  match trim (list_ascii_of_string s) with
  | [] => Int 0
  | c :: rest =>
      if Ascii.eqb c "+" then unsignedInteger rest
      else if Ascii.eqb c "-" then
        match unsignedInteger rest with
        | Int z => Int (- z)
        | NaN => NaN
        end
      else unsignedInteger (c :: rest)
  end.

Definition decimal (z : Z) : list ascii :=
  list_ascii_of_string (NilZero.string_of_uint (N.to_uint (Z.to_N z))).

(** A comma before every digit that has a multiple of three digits to its
    right; the list is read from the least significant digit. *)
Fixpoint insertCommas (k : nat) (l : list ascii) : list ascii :=
  match l with
  | [] => []
  | c :: rest =>
      match k with
      | O => ","%char :: c :: insertCommas 2 rest
      | S k' => c :: insertCommas k' rest
      end
  end.

Definition grouped (z : Z) : string :=
  string_of_list_ascii (rev (insertCommas 3 (rev (decimal z)))).

Definition signed (symbol : string) (z : Z) : string :=
  if (z <? 0)%Z then ("-" ++ symbol ++ grouped (- z))%string
  else (symbol ++ grouped z)%string.

(** Modelled from the spec: the formatter built by
    [new Intl.NumberFormat("en-PK", {style: "currency", currency: "PKR",
    minimumFractionDigits: 0})] belongs to the host and not to the
    repository.  The spec shows its output on a whole amount as the rupee
    sign followed by the digits grouped in threes, without a fraction. *)
Definition Intl_format (n : jsnum) : string :=
  match n with
  | NaN => "₨NaN"
  | Int z => signed "₨" z
  end.

(** Modelled from the spec: [toLocaleString] groups the digits in threes,
    as in "1,200 sq ft". *)
Definition toLocaleString (n : jsnum) : string :=
  match n with
  | NaN => "NaN"
  | Int z => signed "" z
  end.

#[export] Instance platform : Platform :=
  Build_Platform jsnum isNaN toNumeric Intl_format toLocaleString.

(** A plan object none of whose fields is set. *)
Definition emptyPlan : InstallmentOptions :=
  {| booking := VUndefined;
     allotmentConfirmation := VUndefined;
     monthlyInstallments := VUndefined;
     halfYearly := VUndefined;
     onPossession := VUndefined;
     total := VUndefined |}.

Definition sampleFlat : Apartment :=
  {| number := "A-101";
     type := "2 Bed";
     status := available;
     bedrooms := 2;
     bathrooms := Some 2%Z;
     area := Some (Int 1200);
     price := VString "1,250,000";
     installmentOptions := Some emptyPlan;
     renders := Some ["/renders/a.jpg"; "/renders/b.jpg"; "/renders/c.jpg"] |}.

Definition sampleShop : Apartment :=
  {| number := "G-02";
     type := "Shop";
     status := sold;
     bedrooms := 0;
     bathrooms := None;
     area := None;
     price := VUndefined;
     installmentOptions := None;
     renders := None |}.

Definition sampleStudio : Apartment :=
  {| number := "S-7";
     type := "STUDIO";
     status := available;
     bedrooms := 0;
     bathrooms := Some 1%Z;
     area := Some (Int 450);
     price := VNumber (Int 1250000);
     installmentOptions := None;
     renders := Some ["/renders/s.jpg"] |}.

(** Two view states: the lightbox open on the first render, and the second
    render shown in the panel. *)
Definition openedOnFirst : State :=
  {| currentImageIndex := 0%Z; lightboxOpen := true |}.

Definition onSecond : State :=
  {| currentImageIndex := 1%Z; lightboxOpen := false |}.

End IntegerPlatform.

(** ** The rest of the component *)

Module JsText.

Definition isLowerAscii (c : ascii) : bool :=
  (97 <=? nat_of_ascii c)%nat && (nat_of_ascii c <=? 122)%nat.

Definition upperChar (c : ascii) : ascii :=
  if isLowerAscii c then ascii_of_nat (nat_of_ascii c - 32) else c.

(** [String.prototype.toUpperCase] on the bytes of the string: the letters
    a-z are mapped and every other byte is kept.  This is what the host does
    on ASCII text; a character outside ASCII may change under the host's
    [toUpperCase] and is outside this model. *)
Fixpoint toUpperCase (s : string) : string :=
  match s with
  | EmptyString => EmptyString
  | String c rest => String (upperChar c) (toUpperCase rest)
  end.

(** [s.charAt(i)]: the empty string past the end. *)
Definition charAt (s : string) (i : nat) : string :=
  match String.get i s with
  | Some c => String c EmptyString
  | None => EmptyString
  end.

(** [s.slice(from)] for a [from] that is not negative. *)
Definition slice (s : string) (from : nat) : string :=
  String.substring from (String.length s - from) s.

(** The text starts with a character of ASCII, or is empty. *)
Definition asciiInitial (s : string) : bool :=
  match s with
  | EmptyString => true
  | String c _ => (nat_of_ascii c <? 128)%nat
  end.

Fixpoint onlyCommas (s : string) : bool :=
  match s with
  | EmptyString => true
  | String c rest => Ascii.eqb c "," && onlyCommas rest
  end.

End JsText.

(** [capitalize]: [!str] holds for the empty string only. *)
Definition capitalize (str : string) : string :=
  if str =? "" then ""
  else (JsText.toUpperCase (JsText.charAt str 0) ++ JsText.slice str 1)%string.

(** *** The key listener as a resource

    [useEffect] creates one [onKey] closure per run.  The closure sees the
    variables of the render that ran the effect; [born] is the number of that
    render and stands for the identity of the closure.  The props [onClose]
    and [apartment.renders] do not change here, so of the dependencies
    [[onClose, lightboxOpen, apartment.renders]] only [lightboxOpen] can
    differ between two renders. *)

Record Listener := {
  born : nat;
  captured : State
}.

(** [document.addEventListener("keydown", l)]: a listener that is already
    registered is not registered twice. *)
Definition addEventListener (l : Listener) (ls : list Listener) : list Listener :=
  if existsb (fun x => (born x =? born l)%nat) ls then ls else ls ++ [l].

(** [document.removeEventListener("keydown", l)] *)
Definition removeEventListener (l : Listener) (ls : list Listener) : list Listener :=
  filter (fun x => negb (born x =? born l)%nat) ls.

(** The mounted component as the page holds it: the state of the last
    render, the number of that render, the component's listeners on the
    document, and the listener whose removal the last run of the effect
    returned as its cleanup. *)
Record Host := {
  shown : State;
  renderNo : nat;
  keydown : list Listener;
  installed : Listener
}.

Definition depsChanged (before after : State) : bool :=
  negb (Bool.eqb (lightboxOpen before) (lightboxOpen after)).

Definition mount : Host :=
  let l := {| born := 0; captured := initialState |} in
  {| shown := initialState;
     renderNo := 0;
     keydown := addEventListener l [];
     installed := l |}.

(** The render that follows an event: when a dependency differs, the
    cleanup of the previous run is called and the effect runs again. *)
Definition rerender (h : Host) (s : State) : Host :=
  let l := {| born := S (renderNo h); captured := s |} in
  if depsChanged (captured (installed h)) s then
    {| shown := s;
       renderNo := S (renderNo h);
       keydown := addEventListener l (removeEventListener (installed h) (keydown h));
       installed := l |}
  else
    {| shown := s;
       renderNo := S (renderNo h);
       keydown := keydown h;
       installed := installed h |}.

(** Unmounting calls the pending cleanup; what is left are listeners the
    component leaks. *)
Definition unmount (h : Host) : list Listener :=
  removeEventListener (installed h) (keydown h).

(** The effect is in step with the render: one listener is registered, it
    is the one the pending cleanup removes, and it has captured the
    [lightboxOpen] of the last render.  The index it has captured may be
    out of date; [onKey] does not read it. *)
Definition inStep (h : Host) : Prop :=
  keydown h = [installed h]
  /\ lightboxOpen (captured (installed h)) = lightboxOpen (shown h).

Section Hosted.

Context {P : Platform}.

(** A key press runs every registered closure with the variables it has
    captured; a click runs the [onClick] props of the last render. *)
Definition dispatch (a : Apartment) (h : Host) (ev : Event) : Host * nat :=
  let acts :=
    match ev with
    | KeyDown key => flat_map (fun l => onKey a (captured l) key) (keydown h)
    | Click target => click a (shown h) target
    end in
  let r := performAll acts (shown h, 0%nat) in
  (rerender h (fst r), snd r).

Fixpoint dispatchAll (a : Apartment) (evs : list Event) (w : Host * nat)
  : Host * nat :=
  match evs with
  | [] => w
  | ev :: rest =>
      let r := dispatch a (fst w) ev in
      dispatchAll a rest (fst r, (snd w + snd r)%nat)
  end.

End Hosted.

(** * Properties *)

Section Carousel.

Context {P : Platform}.

Local Open Scope Z_scope.

Lemma nextIndex_mod (len i : Z) :
  0 < len -> 0 <= i -> nextIndex len i = (i + 1) mod len.
Proof.
  intros Hlen Hi. unfold nextIndex, Js.remainder.
  apply Z.rem_mod_nonneg; lia.
Qed.

Lemma prevIndex_mod (len i : Z) :
  0 < len -> 0 <= i -> prevIndex len i = (i - 1) mod len.
Proof.
  intros Hlen Hi. unfold prevIndex, Js.remainder.
  rewrite Z.rem_mod_nonneg by lia.
  replace (i - 1 + len) with (i - 1 + 1 * len) by ring.
  apply Z.mod_add. lia.
Qed.

Lemma nextIndex_range (len i : Z) :
  0 <= i < len -> 0 <= nextIndex len i < len.
Proof.
  intros Hi. rewrite nextIndex_mod by lia. apply Z.mod_pos_bound. lia.
Qed.

Lemma prevIndex_range (len i : Z) :
  0 <= i < len -> 0 <= prevIndex len i < len.
Proof.
  intros Hi. rewrite prevIndex_mod by lia. apply Z.mod_pos_bound. lia.
Qed.

Lemma rendersOfLength_length (a : Apartment) (n : Z) :
  rendersOfLength a n -> rendersLength a = n /\ 0 < n /\ hasRenders a = true.
Proof.
  intros (l & Hr & Hne & ->). unfold rendersLength, hasRenders. rewrite Hr.
  destruct l as [|x l]; [contradiction|].
  cbn [List.length]. repeat split; lia.
Qed.

Lemma noRenders_hasRenders (a : Apartment) :
  noRenders a -> hasRenders a = false.
Proof.
  unfold hasRenders. intros [H | H]; rewrite H; reflexivity.
Qed.

(** Every update of the index that a handler asks for is one of the two
    modular functions. *)
Lemma handle_index_updates (a : Apartment) (s : State) (ev : Event) (act : Action) :
  In act (handle a s ev) ->
  match act with
  | SetCurrentImageIndex f =>
      f = nextIndex (rendersLength a) \/ f = prevIndex (rendersLength a)
  | _ => True
  end.
Proof.
  intros Hin. destruct ev as [key | target]; cbn [handle] in Hin.
  - unfold onKey in Hin.
    repeat (apply in_app_or in Hin; destruct Hin as [Hin | Hin]);
      repeat match type of Hin with
             | In _ (if ?c then _ else _) => destruct c
             end;
      cbn in Hin; intuition (subst; auto).
  - unfold click in Hin. apply in_flat_map in Hin.
    destruct Hin as (cur & _ & Hin).
    destruct cur; cbn in Hin; unfold handleBackdropClick in Hin;
      repeat match type of Hin with
             | In _ (if ?c then _ else _) => destruct c
             end;
      cbn in Hin; intuition (subst; auto).
Qed.

Lemma performAll_index (len : Z) (acts : list Action) :
  Forall (keepsIndexBelow len) acts ->
  forall w, 0 <= currentImageIndex (fst w) < len ->
            0 <= currentImageIndex (fst (performAll acts w)) < len.
Proof.
  unfold performAll.
  induction 1 as [| act acts Hact _ IH]; intros w Hw; cbn [fold_left].
  - exact Hw.
  - apply IH. destruct act; cbn; auto.
Qed.

Lemma handle_keepsIndexBelow (a : Apartment) (s : State) (ev : Event) (n : Z) :
  rendersOfLength a n -> Forall (keepsIndexBelow n) (handle a s ev).
Proof.
  intros Hn. destruct (rendersOfLength_length a n Hn) as (Hlen & Hpos & _).
  apply Forall_forall. intros act Hin.
  pose proof (handle_index_updates a s ev act Hin) as Hupd.
  destruct act as [b | f |]; cbn; auto.
  rewrite Hlen in Hupd. intros i Hi.
  destruct Hupd as [-> | ->];
    [apply nextIndex_range | apply prevIndex_range]; exact Hi.
Qed.

Lemma iter_nextIndex (len : Z) (k : nat) (i : Z) :
  0 <= i < len ->
  Nat.iter k (nextIndex len) i = (i + Z.of_nat k) mod len.
Proof.
  intros Hi. induction k as [| k IH].
  - cbn. rewrite Z.add_0_r. symmetry. apply Z.mod_small. exact Hi.
  - rewrite Nat.iter_succ, IH.
    rewrite nextIndex_mod by (try apply Z.mod_pos_bound; lia).
    rewrite Zplus_mod_idemp_l. f_equal. lia.
Qed.

Lemma iter_prevIndex (len : Z) (k : nat) (i : Z) :
  0 <= i < len ->
  Nat.iter k (prevIndex len) i = (i - Z.of_nat k) mod len.
Proof.
  intros Hi. induction k as [| k IH].
  - cbn. rewrite Z.sub_0_r. symmetry. apply Z.mod_small. exact Hi.
  - rewrite Nat.iter_succ, IH.
    rewrite prevIndex_mod by (try apply Z.mod_pos_bound; lia).
    rewrite Zminus_mod_idemp_l. f_equal. lia.
Qed.

Lemma full_turn_forward (len i : Z) :
  0 <= i < len -> (i + len) mod len = i.
Proof.
  intros Hi. replace (i + len) with (i + 1 * len) by ring.
  rewrite Z.mod_add by lia. apply Z.mod_small. exact Hi.
Qed.

Lemma full_turn_backward (len i : Z) :
  0 <= i < len -> (i - len) mod len = i.
Proof.
  intros Hi. replace (i - len) with (i + (-1) * len) by ring.
  rewrite Z.mod_add by lia. apply Z.mod_small. exact Hi.
Qed.

(** C1.  For a record whose renders form a non-empty array of length N the
    index starts at 0, every update a key press or a click asks for is
    [(i + 1) % N] or [(i - 1 + N) % N], both of which map [0, N) into
    itself, and so the index lies in [0, N) in every reachable state. *)
Theorem C1_index_within_renders (a : Apartment) (n : Z) :
  rendersOfLength a n ->
  currentImageIndex initialState = 0
  /\ (forall s ev act,
        In act (handle a s ev) ->
        match act with
        | SetCurrentImageIndex f =>
            (f = nextIndex n \/ f = prevIndex n)
            /\ forall i, 0 <= i < n -> 0 <= f i < n /\ (f i = (i + 1) mod n \/ f i = (i - 1) mod n)
        | _ => True
        end)
  /\ (forall s, reachable a s -> 0 <= currentImageIndex s < n).
Proof.
  intros Hn. destruct (rendersOfLength_length a n Hn) as (Hlen & Hpos & _).
  split; [reflexivity | split].
  - intros s ev act Hin.
    pose proof (handle_index_updates a s ev act Hin) as Hupd.
    destruct act as [b | f |]; auto.
    rewrite Hlen in Hupd. split; [exact Hupd |].
    intros i Hi. destruct Hupd as [-> | ->].
    + split; [apply nextIndex_range; exact Hi |].
      left. apply nextIndex_mod; lia.
    + split; [apply prevIndex_range; exact Hi |].
      right. apply prevIndex_mod; lia.
  - intros s Hreach. induction Hreach as [| s ev _ IH _].
    + cbn. lia.
    + unfold step. apply performAll_index.
      * apply handle_keepsIndexBelow. exact Hn.
      * exact IH.
Qed.

Lemma arrowRight_step (a : Apartment) (s : State) :
  hasRenders a = true ->
  step a s (KeyDown "ArrowRight")
  = ({| currentImageIndex := nextIndex (rendersLength a) (currentImageIndex s);
        lightboxOpen := lightboxOpen s |}, 0%nat).
Proof.
  intros Hr. unfold step, handle, onKey. rewrite Hr. reflexivity.
Qed.

Lemma arrowLeft_step (a : Apartment) (s : State) :
  hasRenders a = true ->
  step a s (KeyDown "ArrowLeft")
  = ({| currentImageIndex := prevIndex (rendersLength a) (currentImageIndex s);
        lightboxOpen := lightboxOpen s |}, 0%nat).
Proof.
  intros Hr. unfold step, handle, onKey. rewrite Hr. reflexivity.
Qed.

Lemma arrow_step_without_renders (a : Apartment) (s : State) (key : string) :
  hasRenders a = false ->
  key = "ArrowRight" \/ key = "ArrowLeft" ->
  step a s (KeyDown key) = (s, 0%nat).
Proof.
  intros Hr [-> | ->]; unfold step, handle, onKey; rewrite Hr; reflexivity.
Qed.

(** Pressing one key [k] times applies its update [k] times and calls
    nothing. *)
Lemma runEvents_repeat (a : Apartment) (ev : Event) (f : Z -> Z) :
  (forall s, step a s ev
             = ({| currentImageIndex := f (currentImageIndex s);
                   lightboxOpen := lightboxOpen s |}, 0%nat)) ->
  forall (k : nat) (s : State) (c : nat),
    runEvents a (repeat ev k) (s, c)
    = ({| currentImageIndex := Nat.iter k f (currentImageIndex s);
          lightboxOpen := lightboxOpen s |}, c).
Proof.
  intros Hstep. induction k as [| k IH]; intros s c.
  - destruct s. reflexivity.
  - cbn [repeat runEvents fst snd]. rewrite Hstep. cbn [fst snd].
    rewrite Nat.add_0_r, IH. cbn [currentImageIndex lightboxOpen].
    rewrite Nat.iter_succ_r. reflexivity.
Qed.

(** C2.  With N >= 1 renders and the index i in [0, N): N times "next"
    leads back to i, N times "previous" leads back to i, and "previous"
    after "next" is the identity.  The same holds for the view state under
    the arrow keys, which run these two updates. *)
Theorem C2_next_previous_cycle (a : Apartment) (n : Z) (s : State) :
  rendersOfLength a n ->
  0 <= currentImageIndex s < n ->
  Nat.iter (Z.to_nat n) (nextIndex n) (currentImageIndex s) = currentImageIndex s
  /\ Nat.iter (Z.to_nat n) (prevIndex n) (currentImageIndex s) = currentImageIndex s
  /\ prevIndex n (nextIndex n (currentImageIndex s)) = currentImageIndex s
  /\ runEvents a (repeat (KeyDown "ArrowRight") (Z.to_nat n)) (s, 0%nat) = (s, 0%nat)
  /\ runEvents a (repeat (KeyDown "ArrowLeft") (Z.to_nat n)) (s, 0%nat) = (s, 0%nat)
  /\ runEvents a [KeyDown "ArrowRight"; KeyDown "ArrowLeft"] (s, 0%nat) = (s, 0%nat).
Proof.
  intros Hn Hi. destruct (rendersOfLength_length a n Hn) as (Hlen & Hpos & Hr).
  assert (Hfwd : Nat.iter (Z.to_nat n) (nextIndex n) (currentImageIndex s)
                 = currentImageIndex s).
  { rewrite iter_nextIndex by exact Hi. rewrite Z2Nat.id by lia.
    apply full_turn_forward. exact Hi. }
  assert (Hbwd : Nat.iter (Z.to_nat n) (prevIndex n) (currentImageIndex s)
                 = currentImageIndex s).
  { rewrite iter_prevIndex by exact Hi. rewrite Z2Nat.id by lia.
    apply full_turn_backward. exact Hi. }
  assert (Hinv : prevIndex n (nextIndex n (currentImageIndex s))
                 = currentImageIndex s).
  { rewrite prevIndex_mod by (try apply nextIndex_range; lia).
    rewrite nextIndex_mod by lia.
    rewrite Zminus_mod_idemp_l.
    replace (currentImageIndex s + 1 - 1) with (currentImageIndex s) by ring.
    apply Z.mod_small. exact Hi. }
  repeat split; try assumption.
  - rewrite (runEvents_repeat a _ (nextIndex n))
      by (intros s0; rewrite arrowRight_step, Hlen by exact Hr; reflexivity).
    rewrite Hfwd. destruct s. reflexivity.
  - rewrite (runEvents_repeat a _ (prevIndex n))
      by (intros s0; rewrite arrowLeft_step, Hlen by exact Hr; reflexivity).
    rewrite Hbwd. destruct s. reflexivity.
  - cbn [runEvents fst snd].
    rewrite arrowRight_step by exact Hr. cbn [fst snd].
    rewrite arrowLeft_step by exact Hr.
    cbn [fst snd currentImageIndex lightboxOpen].
    rewrite Hlen, Hinv. destruct s. reflexivity.
Qed.

(** C9.  ArrowRight and ArrowLeft do nothing when [renders] is missing or
    empty.  Otherwise they move the index one place forward or backward
    modulo the number of renders, call nothing, keep the lightbox flag, and
    produce the same index whatever the lightbox flag is. *)
Theorem C9_arrow_keys_frame (a : Apartment) (s : State) (key : string) :
  key = "ArrowRight" \/ key = "ArrowLeft" ->
  (noRenders a -> step a s (KeyDown key) = (s, 0%nat))
  /\ (forall n, rendersOfLength a n ->
        let moved := if (key =? "ArrowRight")%string then nextIndex n else prevIndex n in
        let delta := if (key =? "ArrowRight")%string then 1 else -1 in
        step a s (KeyDown key)
        = ({| currentImageIndex := moved (currentImageIndex s);
              lightboxOpen := lightboxOpen s |}, 0%nat)
        /\ (0 <= currentImageIndex s < n ->
            moved (currentImageIndex s) = (currentImageIndex s + delta) mod n)
        /\ (forall open,
              currentImageIndex
                (fst (step a {| currentImageIndex := currentImageIndex s;
                                lightboxOpen := open |} (KeyDown key)))
              = moved (currentImageIndex s))).
Proof.
  intros Hkey. split.
  - intros Hno. apply arrow_step_without_renders; [| exact Hkey].
    apply noRenders_hasRenders. exact Hno.
  - intros n Hn. destruct (rendersOfLength_length a n Hn) as (Hlen & Hpos & Hr).
    destruct Hkey as [-> | ->]; cbn [String.eqb Ascii.eqb Bool.eqb]; cbv zeta.
    + rewrite arrowRight_step, Hlen by exact Hr. repeat split.
      * intros Hi. apply nextIndex_mod; lia.
      * intros open. rewrite arrowRight_step, Hlen by exact Hr. reflexivity.
    + rewrite arrowLeft_step, Hlen by exact Hr. repeat split.
      * intros Hi. rewrite prevIndex_mod by lia. f_equal.
      * intros open. rewrite arrowLeft_step, Hlen by exact Hr. reflexivity.
Qed.

End Carousel.

Section Dismissal.

Context {P : Platform}.

Lemma escape_step_open (a : Apartment) (s : State) :
  lightboxOpen s = true ->
  step a s (KeyDown "Escape")
  = ({| currentImageIndex := currentImageIndex s; lightboxOpen := false |}, 0).
Proof.
  intros Hopen. unfold step, handle, onKey. rewrite Hopen. reflexivity.
Qed.

Lemma escape_step_closed (a : Apartment) (s : State) :
  lightboxOpen s = false ->
  step a s (KeyDown "Escape") = (s, 1).
Proof.
  intros Hclosed. unfold step, handle, onKey. rewrite Hclosed. reflexivity.
Qed.

(** C4.  With the lightbox open, Escape closes the lightbox and does not
    call [onClose]; the index is untouched.  A second Escape, now with the
    lightbox closed, calls [onClose] once and changes no view state.  Over
    the two presses [onClose] is called exactly once. *)
Theorem C4_escape_two_levels (a : Apartment) (s : State) :
  lightboxOpen s = true ->
  let first := step a s (KeyDown "Escape") in
  let second := step a (fst first) (KeyDown "Escape") in
  fst first = {| currentImageIndex := currentImageIndex s; lightboxOpen := false |}
  /\ snd first = 0
  /\ fst second = fst first
  /\ snd second = 1
  /\ snd (runEvents a [KeyDown "Escape"; KeyDown "Escape"] (s, 0)) = 1.
Proof.
  intros Hopen first second. subst first second.
  cbn [runEvents fst snd].
  rewrite escape_step_open by exact Hopen. cbn [fst snd].
  rewrite escape_step_closed by reflexivity. cbn [fst snd].
  repeat split; reflexivity.
Qed.

(** Only a click on the gallery image or on the expand control asks for the
    lightbox to open. *)
Lemma openers (a : Apartment) (s : State) (ev : Event) (act : Action) :
  In act (handle a s ev) -> opensLightbox act = true ->
  ev = Click GalleryImage \/ ev = Click ExpandButton.
Proof.
  intros Hin Hopens. destruct ev as [key | target]; cbn [handle] in Hin.
  - exfalso. unfold onKey in Hin.
    repeat (apply in_app_or in Hin; destruct Hin as [Hin | Hin]);
      repeat match type of Hin with
             | In _ (if ?c then _ else _) => destruct c
             end;
      cbn in Hin; intuition (subst; discriminate).
  - destruct target; cbn in Hin; unfold handleBackdropClick in Hin;
      cbn in Hin; auto;
      exfalso;
      repeat match type of Hin with
             | In _ (if ?c then _ else _) => destruct c
             | In _ (_ ++ _) => apply in_app_or in Hin; destruct Hin as [Hin | Hin]
             end;
      cbn in Hin; intuition (subst; discriminate).
Qed.

Lemma performAll_stays_closed (acts : list Action) :
  Forall (fun act => opensLightbox act = false) acts ->
  forall w, lightboxOpen (fst w) = false ->
            lightboxOpen (fst (performAll acts w)) = false.
Proof.
  unfold performAll.
  induction 1 as [| act acts Hact _ IH]; intros w Hw; cbn [fold_left].
  - exact Hw.
  - apply IH. destruct act as [[|] | f |]; cbn in *; congruence.
Qed.

Lemma gallery_without_renders (a : Apartment) (s : State) :
  noRenders a -> gallery (render a s) = None.
Proof.
  intros [H | H]; cbn [render gallery]; unfold renderGallery; rewrite H;
    reflexivity.
Qed.

(** C10.  For a record whose [renders] is missing or empty: the lightbox
    starts closed; an update that opens it is only ever asked for by a click
    on the gallery image or on the expand control, neither of which is on
    screen; so the flag is false in every reachable state and the lightbox
    overlay is never rendered. *)
Theorem C10_lightbox_needs_renders (a : Apartment) :
  noRenders a ->
  lightboxOpen initialState = false
  /\ (forall s ev act,
        In act (handle a s ev) -> opensLightbox act = true ->
        ev = Click GalleryImage \/ ev = Click ExpandButton)
  /\ (forall s,
        mounted (render a s) GalleryImage = false
        /\ mounted (render a s) ExpandButton = false)
  /\ (forall s,
        reachable a s ->
        lightboxOpen s = false
        /\ lightbox (render a s) = None
        /\ mounted (render a s) LightboxOverlay = false).
Proof.
  intros Hno.
  assert (Hoff : forall s, mounted (render a s) GalleryImage = false
                           /\ mounted (render a s) ExpandButton = false).
  { intros s. unfold mounted. rewrite gallery_without_renders by exact Hno.
    split; reflexivity. }
  split; [reflexivity | split; [| split; [exact Hoff |]]].
  - intros s ev act. apply openers.
  - intros s Hreach.
    assert (Hclosed : lightboxOpen s = false).
    { induction Hreach as [| s ev _ IH Hen].
      - reflexivity.
      - unfold step. apply performAll_stays_closed; [| exact IH].
        apply Forall_forall. intros act Hin.
        destruct (opensLightbox act) eqn:Hopens; [| reflexivity].
        exfalso. destruct (Hoff s) as [Himg Hexp].
        destruct (openers a s ev act Hin Hopens) as [-> | ->];
          cbn [enabled] in Hen; congruence. }
    split; [exact Hclosed |].
    unfold mounted. cbn [render lightbox]. unfold renderLightbox.
    rewrite Hclosed. split; reflexivity.
Qed.

End Dismissal.

Section Backdrop.

Context {P : Platform}.

Lemma Element_eqb_eq (x y : Element) : Element_eqb x y = true <-> x = y.
Proof.
  split.
  - destruct x, y; cbn; intros H; first [reflexivity | discriminate H].
  - intros ->. destruct y; reflexivity.
Qed.

Lemma handleBackdropClick_elsewhere (s : State) (target currentTarget : Element) :
  target <> currentTarget -> handleBackdropClick s target currentTarget = [].
Proof.
  intros Hne. unfold handleBackdropClick.
  destruct (Element_eqb target currentTarget) eqn:E; [| reflexivity].
  apply Element_eqb_eq in E. contradiction.
Qed.

(** A click below an overlay runs the handler of its target and nothing
    else: the overlay's handler sees a foreign target. *)
Lemma click_below_overlay (a : Apartment) (s : State) (target overlay : Element) :
  isOverlay overlay = true -> descendantOf target overlay = true ->
  click a s target = onClick a s target target.
Proof.
  intros Hov Hdesc.
  destruct overlay; try discriminate Hov;
    destruct target; try discriminate Hdesc; reflexivity.
Qed.

(** C6, as amended.  [handleBackdropClick] acts only when the target of the
    click is the overlay itself.  For a click whose target lies below an
    overlay the overlay contributes nothing, so the click does what the
    target's own handler does.  Such a click calls [onClose] only when its
    target is the close control of the dialog, which calls it once and
    leaves the view state alone.  It changes the lightbox flag only when its
    target is the gallery image or the expand control, which open the
    lightbox, or the lightbox close control, which closes it; none of the
    three calls [onClose] or moves the index.  A click on the lightbox's own
    backdrop closes the lightbox and does not call [onClose]. *)
Theorem C6_backdrop_only_on_overlay (a : Apartment) (s : State) :
  (forall target currentTarget,
      target <> currentTarget ->
      handleBackdropClick s target currentTarget = [])
  /\ (forall target overlay,
        isOverlay overlay = true -> descendantOf target overlay = true ->
        click a s target = onClick a s target target
        /\ (target <> CloseButton -> snd (step a s (Click target)) = 0)
        /\ (togglesLightbox target = false ->
            lightboxOpen (fst (step a s (Click target))) = lightboxOpen s))
  /\ (mounted (render a s) LightboxOverlay = true ->
      step a s (Click LightboxOverlay)
      = ({| currentImageIndex := currentImageIndex s; lightboxOpen := false |}, 0))
  /\ (step a s (Click CloseButton) = (s, 1)
      /\ step a s (Click GalleryImage)
         = ({| currentImageIndex := currentImageIndex s; lightboxOpen := true |}, 0)
      /\ step a s (Click ExpandButton)
         = ({| currentImageIndex := currentImageIndex s; lightboxOpen := true |}, 0)
      /\ step a s (Click LightboxCloseButton)
         = ({| currentImageIndex := currentImageIndex s; lightboxOpen := false |}, 0)).
Proof.
  split; [| split; [| split]]; [| | | repeat split].
  - intros target currentTarget. apply handleBackdropClick_elsewhere.
  - intros target overlay Hov Hdesc.
    split; [apply (click_below_overlay a s target overlay Hov Hdesc) |].
    unfold step. cbn [handle].
    rewrite (click_below_overlay a s target overlay Hov Hdesc).
    split.
    + intros Hother.
      destruct target; try discriminate Hdesc; try reflexivity.
      contradiction.
    + intros Hplain.
      destruct target; try discriminate Hplain; try discriminate Hdesc;
        reflexivity.
  - intros Hmounted.
    assert (Hopen : lightboxOpen s = true).
    { unfold mounted in Hmounted. cbn [render lightbox] in Hmounted.
      unfold renderLightbox in Hmounted.
      destruct (lightboxOpen s); [reflexivity | discriminate Hmounted]. }
    unfold step. cbn. unfold handleBackdropClick. cbn. rewrite Hopen.
    reflexivity.
Qed.

(** C6, as the claim words it, fails in both of its parts.  The close
    control sits inside the dialog panel, below the main overlay, and a
    click on it calls [onClose]; the gallery image sits there too, and a
    click on it opens the lightbox. *)
Lemma C6_close_control_counterexample :
  ~ (forall (a : @Apartment IntegerPlatform.platform) (s : State)
            (target overlay : Element),
        isOverlay overlay = true ->
        descendantOf target overlay = true ->
        mounted (render a s) target = true ->
        snd (step a s (Click target)) = 0
        /\ lightboxOpen (fst (step a s (Click target))) = lightboxOpen s)
  /\ ~ (forall (a : @Apartment IntegerPlatform.platform) (s : State)
               (target overlay : Element),
           isOverlay overlay = true ->
           descendantOf target overlay = true ->
           mounted (render a s) target = true ->
           snd (step a s (Click target)) = 0)
  /\ ~ (forall (a : @Apartment IntegerPlatform.platform) (s : State)
               (target overlay : Element),
           isOverlay overlay = true ->
           descendantOf target overlay = true ->
           mounted (render a s) target = true ->
           lightboxOpen (fst (step a s (Click target))) = lightboxOpen s).
Proof.
  split; [| split]; intros H.
  - destruct (H IntegerPlatform.sampleShop initialState CloseButton MainOverlay
                eq_refl eq_refl eq_refl) as [Hcalls _].
    discriminate Hcalls.
  - pose proof (H IntegerPlatform.sampleShop initialState CloseButton
                  MainOverlay eq_refl eq_refl eq_refl) as Hcalls.
    discriminate Hcalls.
  - pose proof (H IntegerPlatform.sampleFlat initialState GalleryImage
                  MainOverlay eq_refl eq_refl eq_refl) as Hflag.
    discriminate Hflag.
Qed.

End Backdrop.

Section Sections.

Context {P : Platform}.

Local Open Scope Z_scope.

Lemma isCommercial_iff (a : Apartment) :
  isCommercial a = true
  <-> Js.toLowerCase (type a) = "shop"%string
      \/ Js.toLowerCase (type a) = "office"%string.
Proof.
  unfold isCommercial, Js.includes. cbn [existsb].
  rewrite !orb_true_iff, !String.eqb_eq. intuition discriminate.
Qed.

Lemma isStudio_iff (a : Apartment) :
  isStudio a = true <-> Js.toLowerCase (type a) = "studio"%string.
Proof. unfold isStudio. apply String.eqb_eq. Qed.

Lemma existsb_when {A : Type} (p : A -> bool) (c : bool) (x : A) :
  existsb p (when c x) = c && p x.
Proof. destruct c; cbn; [apply orb_false_r | reflexivity]. Qed.

(** C5.  The classification reads the type string through [toLowerCase]
    only: "shop" and "office" are commercial, "studio" is studio, every
    other string is residential.  The bedroom line is rendered exactly for
    residential units, the bathroom line exactly for units that are not
    commercial, and the price line is missing exactly for commercial
    units. *)
Theorem C5_classification_and_lines (a : Apartment) :
  (forall b, Js.toLowerCase (type b) = Js.toLowerCase (type a) ->
             classifyUnit b = classifyUnit a)
  /\ (classifyUnit a = Commercial
      <-> Js.toLowerCase (type a) = "shop"%string
          \/ Js.toLowerCase (type a) = "office"%string)
  /\ (classifyUnit a = Studio <-> Js.toLowerCase (type a) = "studio"%string)
  /\ (classifyUnit a = Residential
      <-> Js.toLowerCase (type a) <> "shop"%string
          /\ Js.toLowerCase (type a) <> "office"%string
          /\ Js.toLowerCase (type a) <> "studio"%string)
  /\ (forall s,
        (hasBedroomLine (render a s) = true <-> classifyUnit a = Residential)
        /\ (hasBathroomLine (render a s) = true <-> classifyUnit a <> Commercial)
        /\ (hasPriceLine (render a s) = false <-> classifyUnit a = Commercial)).
Proof.
  pose proof (isCommercial_iff a) as Hc.
  pose proof (isStudio_iff a) as Hs.
  split; [| split; [| split; [| split]]].
  - intros b Hb. unfold classifyUnit, isCommercial, isStudio.
    rewrite Hb. reflexivity.
  - unfold classifyUnit.
    destruct (isCommercial a); [| destruct (isStudio a)];
      intuition (try discriminate; try congruence).
  - unfold classifyUnit.
    destruct (isCommercial a) eqn:Ec; [| destruct (isStudio a)].
    + split; [discriminate |]. intros Hst.
      destruct (proj1 Hc eq_refl) as [H | H]; rewrite Hst in H; discriminate H.
    + intuition congruence.
    + intuition (try discriminate; try congruence).
  - unfold classifyUnit.
    destruct (isCommercial a) eqn:Ec; [| destruct (isStudio a) eqn:Es].
    + split; [discriminate |]. intros (H1 & H2 & _).
      destruct (proj1 Hc eq_refl); contradiction.
    + split; [discriminate |]. intros (_ & _ & H3).
      elim H3. apply Hs. reflexivity.
    + split; [| reflexivity]. intros _.
      repeat split; intros H;
        [ assert (false = true) by (apply Hc; left; exact H)
        | assert (false = true) by (apply Hc; right; exact H)
        | assert (false = true) by (apply Hs; exact H) ];
        discriminate.
  - intros s. unfold hasBedroomLine, hasBathroomLine, hasPriceLine.
    cbn [render details]. unfold renderDetails, classifyUnit.
    rewrite !existsb_app, !existsb_when. cbn [existsb].
    destruct (isCommercial a), (isStudio a); cbn;
      repeat split; intros; try reflexivity; try discriminate; try congruence.
Qed.

(** C7.  The gallery is rendered exactly when [renders] is a non-empty
    array, and then with its disclaimer, image and expand control.  Its
    heading is "Image Gallery" exactly for more than one render and
    "Render & Image" exactly for one; the previous and next controls are
    there exactly for more than one render, so a single render leaves the
    expand control alone. *)
Theorem C7_gallery_region (a : Apartment) (s : State) :
  (isSome (gallery (render a s)) = true <-> exists n, rendersOfLength a n)
  /\ (forall e, In e [GalleryImage; PrevButton; NextButton; ExpandButton] ->
                mounted (render a s) e = true -> isSome (gallery (render a s)) = true)
  /\ (forall n g,
        rendersOfLength a n -> gallery (render a s) = Some g ->
        (galleryHeading g = "Image Gallery"%string <-> 1 < n)
        /\ (galleryHeading g = "Render & Image"%string <-> n = 1)
        /\ disclaimer g <> ""%string
        /\ imageSrc g = renderAt a (currentImageIndex s)
        /\ mounted (render a s) GalleryImage = true
        /\ mounted (render a s) ExpandButton = true
        /\ (mounted (render a s) PrevButton = true <-> 1 < n)
        /\ (mounted (render a s) NextButton = true <-> 1 < n)
        /\ (n = 1 -> controls g = [ExpandButton])).
Proof.
  split; [| split].
  - cbn [render gallery]. unfold renderGallery, rendersOfLength.
    destruct (renders a) as [l |] eqn:Hr.
    + destruct l as [| x l].
      * cbn. split; [discriminate |].
        intros (n & l' & Hl' & Hne & _). injection Hl' as <-. contradiction.
      * cbn [List.length].
        destruct (Z.ltb_spec 0 (Z.of_nat (S (List.length l)))); [| lia].
        split; [| reflexivity]. intros _.
        exists (Z.of_nat (S (List.length l))), (x :: l).
        repeat split. discriminate.
    + cbn. split; [discriminate |].
      intros (n & l' & Hl' & _). discriminate Hl'.
  - intros e He. unfold mounted.
    destruct (gallery (render a s)); cbn [isSome]; [reflexivity |].
    cbn [In] in He.
    destruct He as [<- | [<- | [<- | [<- | []]]]]; intros H; exact H.
  - intros n g (l & Hr & Hne & ->) Hg.
    assert (Hpos : 0 < Z.of_nat (List.length l))
      by (destruct l; [contradiction | cbn [List.length]; lia]).
    unfold mounted. rewrite Hg.
    cbn [render gallery] in Hg. unfold renderGallery in Hg. rewrite Hr in Hg.
    remember (Z.of_nat (List.length l)) as n eqn:En. clear En.
    destruct (Z.ltb_spec 0 n); [| lia].
    injection Hg as <-. cbn [galleryHeading disclaimer imageSrc controls isSome].
    destruct (Z.ltb_spec 1 n); cbn;
      repeat split; intros; try reflexivity; try discriminate; try lia.
Qed.

End Sections.

Section Amounts.

Context {P : Platform}.

Lemma formatPrice_absent (v : value) : absent v -> formatPrice v = "N/A"%string.
Proof. intros [-> | ->]; reflexivity. Qed.

Lemma formatPrice_number (n : Num) : formatPrice (VNumber n) = Intl_format n.
Proof. reflexivity. Qed.

Lemma toNumber_string (s : string) :
  s <> ""%string ->
  toNumber (VString s)
  = if isNaN (toNumeric (Js.removeCommas s)) then None
    else Some (toNumeric (Js.removeCommas s)).
Proof.
  intros Hne. unfold toNumber.
  destruct (String.eqb_spec s ""); [contradiction | reflexivity].
Qed.

Lemma formatPrice_unparsed (s : string) :
  s <> ""%string -> isNaN (toNumeric (Js.removeCommas s)) = true ->
  formatPrice (VString s) = s.
Proof.
  intros Hne Hnan. unfold formatPrice.
  rewrite toNumber_string, Hnan by exact Hne.
  destruct (String.eqb_spec s ""); [contradiction | reflexivity].
Qed.

Lemma formatPrice_parsed (s : string) :
  s <> ""%string -> isNaN (toNumeric (Js.removeCommas s)) = false ->
  formatPrice (VString s) = Intl_format (toNumeric (Js.removeCommas s)).
Proof.
  intros Hne Hnum. unfold formatPrice.
  rewrite toNumber_string, Hnum by exact Hne. reflexivity.
Qed.

(** C8.  The breakdown panel is rendered exactly when the record carries an
    installment plan, and the contact prompt exactly when it does not.  The
    panel has the six lines Booking, Allotment Confirmation, Monthly
    Installments, Half Yearly, On Possession and Total, each the
    [formatPrice] of its field; with none of the six fields set every line,
    the total included, reads "N/A". *)
Theorem C8_payment_options (a : Apartment) (s : State) :
  ((exists rows, payment (render a s) = Breakdown rows)
   <-> exists plan, installmentOptions a = Some plan)
  /\ (forall plan,
        installmentOptions a = Some plan ->
        payment (render a s)
        = Breakdown
            [ ("Booking:", formatPrice (booking plan));
              ("Allotment Confirmation:", formatPrice (allotmentConfirmation plan));
              ("Monthly Installments:", formatPrice (monthlyInstallments plan));
              ("Half Yearly:", formatPrice (halfYearly plan));
              ("On Possession:", formatPrice (onPossession plan));
              ("Total:", formatPrice (total plan)) ]%string)
  /\ (forall plan,
        installmentOptions a = Some plan -> allAbsent plan ->
        payment (render a s)
        = Breakdown
            [ ("Booking:", "N/A");
              ("Allotment Confirmation:", "N/A");
              ("Monthly Installments:", "N/A");
              ("Half Yearly:", "N/A");
              ("On Possession:", "N/A");
              ("Total:", "N/A") ]%string)
  /\ (installmentOptions a = None <->
      payment (render a s)
      = ContactPrompt "Contact us for payment options and financing details.").
Proof.
  cbn [render payment]. unfold renderPayment.
  destruct (installmentOptions a) as [plan |].
  - split; [| split; [| split]].
    + split; intros _; eexists; reflexivity.
    + intros plan' [= <-]. reflexivity.
    + intros plan' [= <-] (H1 & H2 & H3 & H4 & H5 & H6).
      rewrite !formatPrice_absent by assumption. reflexivity.
    + split; discriminate.
  - split; [| split; [| split]].
    + split; intros (x & Hx); discriminate Hx.
    + intros plan' Hplan. discriminate Hplan.
    + intros plan' Hplan. discriminate Hplan.
    + split; reflexivity.
Qed.

End Amounts.

(** C3.  [formatPrice(undefined)] is "N/A" on every platform, and so is
    [formatPrice(null)].  On the integral platform [formatPrice(1250000)]
    and [formatPrice("1,250,000")] are both "₨1,250,000", the commas of the
    string being dropped before it is parsed, and "Contact us" comes back
    unchanged.  On every platform a non-empty string whose [Number] is [NaN]
    is returned verbatim.  [formatPrice] is defined on every number, string,
    [null] and [undefined]: its result is "N/A", the string itself, or the
    formatter's output. *)
Theorem C3_formatPrice_cases :
  (forall P : Platform, @formatPrice P VUndefined = "N/A"%string)
  /\ (forall P : Platform, @formatPrice P VNull = "N/A"%string)
  /\ formatPrice (@VNumber IntegerPlatform.platform (IntegerPlatform.Int 1250000))
     = "₨1,250,000"%string
  /\ @formatPrice IntegerPlatform.platform (VString "1,250,000")
     = "₨1,250,000"%string
  /\ @formatPrice IntegerPlatform.platform (VString "Contact us")
     = "Contact us"%string
  /\ (forall (P : Platform) (s : string),
        s <> ""%string ->
        isNaN (toNumeric (Js.removeCommas s)) = true ->
        toNumber (VString s) = None /\ formatPrice (VString s) = s)
  /\ (forall (P : Platform) (v : value),
        match v with
        | VUndefined | VNull => formatPrice v = "N/A"%string
        | VNumber n => formatPrice v = Intl_format n
        | VString s =>
            (s = ""%string /\ formatPrice v = "N/A"%string)
            \/ (s <> ""%string
                /\ isNaN (toNumeric (Js.removeCommas s)) = true
                /\ formatPrice v = s)
            \/ (s <> ""%string
                /\ isNaN (toNumeric (Js.removeCommas s)) = false
                /\ formatPrice v = Intl_format (toNumeric (Js.removeCommas s)))
        end).
Proof.
  do 5 (split; [reflexivity |]).
  split.
  - intros P s Hne Hnan. split.
    + rewrite toNumber_string, Hnan by exact Hne. reflexivity.
    + apply formatPrice_unparsed; assumption.
  - intros P v. destruct v as [| | n | s]; try reflexivity.
    destruct (String.eqb_spec s "") as [-> | Hne].
    + left. split; reflexivity.
    + right. destruct (isNaN (toNumeric (Js.removeCommas s))) eqn:Hnan.
      * left. repeat split; [exact Hne | apply formatPrice_unparsed; assumption].
      * right. repeat split; [exact Hne | apply formatPrice_parsed; assumption].
Qed.

(** * The properties on sample records *)

Module Samples.

Import IntegerPlatform.

Local Open Scope Z_scope.

Lemma sampleFlat_renders : rendersOfLength sampleFlat 3.
Proof.
  exists ["/renders/a.jpg"; "/renders/b.jpg"; "/renders/c.jpg"]%string.
  split; [reflexivity | split; [discriminate | reflexivity]].
Defined.

Lemma sampleStudio_renders : rendersOfLength sampleStudio 1.
Proof.
  exists ["/renders/s.jpg"]%string.
  split; [reflexivity | split; [discriminate | reflexivity]].
Defined.

Lemma sampleShop_noRenders : noRenders sampleShop.
Proof. left. reflexivity. Defined.

Lemma C1_index_within_renders_witness :
  rendersOfLength sampleFlat 3
  /\ 0 <= currentImageIndex
            (fst (step sampleFlat initialState (KeyDown "ArrowLeft"))) < 3.
Proof.
  split; [exact sampleFlat_renders |].
  apply (proj2 (proj2 (C1_index_within_renders sampleFlat 3 sampleFlat_renders))).
  apply reach_step; [apply reach_init | reflexivity].
Defined.

Lemma C2_next_previous_cycle_witness :
  rendersOfLength sampleFlat 3
  /\ 0 <= currentImageIndex onSecond < 3
  /\ runEvents sampleFlat (repeat (KeyDown "ArrowRight") (Z.to_nat 3))
       (onSecond, 0%nat) = (onSecond, 0%nat).
Proof.
  assert (Hi : 0 <= currentImageIndex onSecond < 3) by (cbn; lia).
  split; [exact sampleFlat_renders | split; [exact Hi |]].
  apply (C2_next_previous_cycle sampleFlat 3 onSecond sampleFlat_renders Hi).
Defined.

Lemma C3_formatPrice_cases_witness :
  "Contact us"%string <> ""%string
  /\ isNaN (toNumeric (Js.removeCommas "Contact us")) = true
  /\ formatPrice (VString "Contact us") = "Contact us"%string.
Proof.
  assert (Hne : "Contact us"%string <> ""%string) by discriminate.
  split; [exact Hne | split; [reflexivity |]].
  destruct C3_formatPrice_cases as (_ & _ & _ & _ & _ & Hverbatim & _).
  apply (Hverbatim platform "Contact us"%string Hne eq_refl).
Defined.

Lemma C4_escape_two_levels_witness :
  lightboxOpen openedOnFirst = true
  /\ snd (runEvents sampleFlat [KeyDown "Escape"; KeyDown "Escape"]
            (openedOnFirst, 0%nat)) = 1%nat.
Proof.
  split; [reflexivity |].
  apply (C4_escape_two_levels sampleFlat openedOnFirst eq_refl).
Defined.

Lemma C5_classification_and_lines_witness :
  hasBedroomLine (render sampleFlat initialState) = true
  /\ hasBathroomLine (render sampleStudio initialState) = true
  /\ hasPriceLine (render sampleShop initialState) = false.
Proof.
  destruct (C5_classification_and_lines sampleFlat)
    as (_ & _ & _ & _ & Hflat).
  destruct (C5_classification_and_lines sampleStudio)
    as (_ & _ & _ & _ & Hstudio).
  destruct (C5_classification_and_lines sampleShop)
    as (_ & _ & _ & _ & Hshop).
  destruct (Hflat initialState) as (Hbed & _ & _).
  destruct (Hstudio initialState) as (_ & Hbath & _).
  destruct (Hshop initialState) as (_ & _ & Hprice).
  split; [| split].
  - apply Hbed. reflexivity.
  - apply Hbath. discriminate.
  - apply Hprice. reflexivity.
Defined.

Lemma C6_backdrop_only_on_overlay_witness :
  mounted (render sampleFlat openedOnFirst) LightboxOverlay = true
  /\ step sampleFlat openedOnFirst (Click LightboxOverlay)
     = ({| currentImageIndex := 0; lightboxOpen := false |}, 0%nat)
  /\ step sampleFlat openedOnFirst (Click LightboxImage)
     = (openedOnFirst, 0%nat)
  /\ (GalleryImage <> CloseButton
      /\ snd (step sampleFlat openedOnFirst (Click GalleryImage)) = 0%nat)
  /\ (togglesLightbox PrevButton = false
      /\ lightboxOpen (fst (step sampleFlat openedOnFirst (Click PrevButton)))
         = lightboxOpen openedOnFirst).
Proof.
  destruct (C6_backdrop_only_on_overlay sampleFlat openedOnFirst)
    as (_ & Hbelow & Hbackdrop & _).
  split; [reflexivity | split; [| split; [| split]]].
  - apply Hbackdrop. reflexivity.
  - destruct (Hbelow LightboxImage LightboxOverlay eq_refl eq_refl)
      as [Hown _].
    unfold step. cbn [handle]. rewrite Hown. reflexivity.
  - assert (Hother : GalleryImage <> CloseButton) by discriminate.
    split; [exact Hother |].
    destruct (Hbelow GalleryImage MainOverlay eq_refl eq_refl)
      as (_ & Hcalls & _).
    exact (Hcalls Hother).
  - split; [reflexivity |].
    destruct (Hbelow PrevButton MainOverlay eq_refl eq_refl)
      as (_ & _ & Hflag).
    exact (Hflag eq_refl).
Defined.

Lemma C7_gallery_region_witness :
  rendersOfLength sampleStudio 1
  /\ (forall g, gallery (render sampleStudio initialState) = Some g ->
                galleryHeading g = "Render & Image"%string
                /\ controls g = [ExpandButton]).
Proof.
  split; [exact sampleStudio_renders |].
  intros g Hg.
  destruct (C7_gallery_region sampleStudio initialState) as (_ & _ & Hshape).
  destruct (Hshape 1 g sampleStudio_renders Hg)
    as (_ & Hone & _ & _ & _ & _ & _ & _ & Hcontrols).
  split; [apply Hone; reflexivity | apply Hcontrols; reflexivity].
Defined.

Lemma sampleFlat_plan : allAbsent emptyPlan.
Proof. repeat split; left; reflexivity. Defined.

Lemma C8_payment_options_witness :
  installmentOptions sampleFlat = Some emptyPlan
  /\ allAbsent emptyPlan
  /\ payment (render sampleFlat initialState)
     = Breakdown
         [ ("Booking:", "N/A");
           ("Allotment Confirmation:", "N/A");
           ("Monthly Installments:", "N/A");
           ("Half Yearly:", "N/A");
           ("On Possession:", "N/A");
           ("Total:", "N/A") ]%string.
Proof.
  split; [reflexivity | split; [exact sampleFlat_plan |]].
  destruct (C8_payment_options sampleFlat initialState) as (_ & _ & Hna & _).
  apply (Hna emptyPlan eq_refl sampleFlat_plan).
Defined.

Lemma C9_arrow_keys_frame_witness :
  ("ArrowRight"%string = "ArrowRight"%string
   \/ "ArrowRight"%string = "ArrowLeft"%string)
  /\ step sampleShop initialState (KeyDown "ArrowRight") = (initialState, 0%nat)
  /\ step sampleFlat openedOnFirst (KeyDown "ArrowRight")
     = ({| currentImageIndex := 1; lightboxOpen := true |}, 0%nat).
Proof.
  assert (Hkey : "ArrowRight"%string = "ArrowRight"%string
                 \/ "ArrowRight"%string = "ArrowLeft"%string)
    by (left; reflexivity).
  split; [exact Hkey | split].
  - apply (proj1 (C9_arrow_keys_frame sampleShop initialState "ArrowRight" Hkey)).
    exact sampleShop_noRenders.
  - apply (proj2 (C9_arrow_keys_frame sampleFlat openedOnFirst "ArrowRight" Hkey)
             3 sampleFlat_renders).
Defined.

Lemma C10_lightbox_needs_renders_witness :
  noRenders sampleShop
  /\ lightboxOpen (fst (step sampleShop initialState (Click MainOverlay))) = false.
Proof.
  split; [exact sampleShop_noRenders |].
  destruct (C10_lightbox_needs_renders sampleShop sampleShop_noRenders)
    as (_ & _ & _ & Hclosed).
  apply Hclosed.
  apply reach_step; [apply reach_init | reflexivity].
Defined.

End Samples.

(** * Further properties of the handlers *)

Section Events.

Context {P : Platform}.

Local Open Scope Z_scope.

(** The three tests of [onKey] exclude one another. *)
Lemma onKey_cases (a : Apartment) (s : State) (key : string) :
  onKey a s key
  = if (key =? "Escape")%string then
      if lightboxOpen s then [SetLightboxOpen false] else [CallOnClose]
    else if (key =? "ArrowRight")%string && hasRenders a then
      [SetCurrentImageIndex (nextIndex (rendersLength a))]
    else if (key =? "ArrowLeft")%string && hasRenders a then
      [SetCurrentImageIndex (prevIndex (rendersLength a))]
    else [].
Proof.
  unfold onKey.
  destruct (String.eqb_spec key "Escape") as [-> | _].
  - cbn. destruct (lightboxOpen s); reflexivity.
  - destruct (String.eqb_spec key "ArrowRight") as [-> | _].
    + cbn. destruct (hasRenders a); reflexivity.
    + cbn. destruct ((key =? "ArrowLeft")%string && hasRenders a); reflexivity.
Qed.

Lemma onKey_reads_lightboxOpen (a : Apartment) (s t : State) (key : string) :
  lightboxOpen s = lightboxOpen t -> onKey a s key = onKey a t key.
Proof. intros H. unfold onKey. rewrite H. reflexivity. Qed.

Lemma mounted_lightbox_open (a : Apartment) (s : State) (e : Element) :
  In e [LightboxOverlay; LightboxFrame; LightboxImage; LightboxCloseButton] ->
  mounted (render a s) e = true -> lightboxOpen s = true.
Proof.
  intros He Hm.
  assert (Hsome : isSome (renderLightbox a s) = true).
  { cbn [In] in He.
    destruct He as [<- | [<- | [<- | [<- | []]]]]; exact Hm. }
  unfold renderLightbox in Hsome.
  destruct (lightboxOpen s); [reflexivity | discriminate Hsome].
Qed.

Lemma mounted_navigation (a : Apartment) (s : State) (e : Element) :
  e = PrevButton \/ e = NextButton ->
  mounted (render a s) e = true ->
  hasRenders a = true /\ 1 < rendersLength a.
Proof.
  intros He Hm. unfold hasRenders, rendersLength.
  assert (Hg : match renderGallery a s with
               | Some g => existsb (Element_eqb e) (controls g)
               | None => false
               end = true)
    by (destruct He as [-> | ->]; exact Hm).
  unfold renderGallery in Hg.
  destruct (renders a) as [l |]; [| discriminate Hg].
  remember (Z.of_nat (List.length l)) as n eqn:En. clear En.
  destruct (Z.ltb_spec 0 n); [| discriminate Hg].
  cbn [controls] in Hg.
  destruct (Z.ltb_spec 1 n).
  - split; [| assumption].
    destruct (Z.eqb_spec n 0); [lia | reflexivity].
  - exfalso. destruct He as [-> | ->]; discriminate Hg.
Qed.

Lemma reachable_index (a : Apartment) (n : Z) (s : State) :
  rendersOfLength a n -> reachable a s -> 0 <= currentImageIndex s < n.
Proof.
  intros Hn Hreach.
  destruct (rendersOfLength_length a n Hn) as (_ & Hpos & _).
  induction Hreach as [| s ev _ IH _].
  - cbn. lia.
  - unfold step. apply performAll_index; [| exact IH].
    apply handle_keepsIndexBelow. exact Hn.
Qed.

(** X1.  A key other than Escape, ArrowRight and ArrowLeft does nothing:
    the view state is kept and [onClose] is not called. *)
Theorem X1_other_keys_ignored (a : Apartment) (s : State) (key : string) :
  key <> "Escape"%string ->
  key <> "ArrowRight"%string ->
  key <> "ArrowLeft"%string ->
  step a s (KeyDown key) = (s, 0%nat).
Proof.
  intros He Hr Hl. unfold step. cbn [handle]. rewrite onKey_cases.
  destruct (String.eqb_spec key "Escape"); [contradiction |].
  destruct (String.eqb_spec key "ArrowRight"); [contradiction |].
  destruct (String.eqb_spec key "ArrowLeft"); [contradiction |].
  reflexivity.
Qed.

(** X2.  Whatever the event and the state, an event does one thing at
    most: it calls [onClose] once and leaves the view state alone, or it
    sets the lightbox flag and nothing else, or it moves the index and
    nothing else.  In particular no click is handled twice on its way up to
    the overlay. *)
Theorem X2_one_effect_per_event (a : Apartment) (s : State) (ev : Event) :
  step a s ev = (s, 1%nat)
  \/ (exists open,
        step a s ev
        = ({| currentImageIndex := currentImageIndex s;
              lightboxOpen := open |}, 0%nat))
  \/ (exists i,
        step a s ev
        = ({| currentImageIndex := i;
              lightboxOpen := lightboxOpen s |}, 0%nat)).
Proof.
  destruct s as [i open]. unfold step. destruct ev as [key | target].
  - cbn [handle]. rewrite onKey_cases. cbn [lightboxOpen].
    destruct (key =? "Escape")%string.
    + destruct open; cbn; eauto.
    + destruct ((key =? "ArrowRight")%string && hasRenders a);
        [cbn; eauto |].
      destruct ((key =? "ArrowLeft")%string && hasRenders a); cbn; eauto.
  - destruct target, open; cbn; eauto.
Qed.

(** X3.  For an event that can occur, [onClose] is called exactly in three
    situations: Escape with the lightbox closed, a click on the close
    control, and a click on the main backdrop itself with the lightbox
    closed.  It is never called more than once. *)
Theorem X3_onClose_exactly_when (a : Apartment) (s : State) (ev : Event) :
  enabled a s ev = true ->
  (snd (step a s ev) = 1%nat
   <-> (ev = KeyDown "Escape" /\ lightboxOpen s = false)
       \/ ev = Click CloseButton
       \/ (ev = Click MainOverlay /\ lightboxOpen s = false))
  /\ (snd (step a s ev) <= 1)%nat.
Proof.
  intros Hen. destruct ev as [key | target].
  - unfold step. cbn [handle]. rewrite onKey_cases.
    destruct (String.eqb_spec key "Escape") as [-> | Hne].
    + destruct (lightboxOpen s); cbn; split; try lia.
      * split; [discriminate |].
        intros [[_ H] | [H | [H _]]]; discriminate H.
      * split; [auto | reflexivity].
    + assert (Hcalls : forall acts,
                 acts = [] \/ (exists f, acts = [SetCurrentImageIndex f]) ->
                 snd (performAll acts (s, 0%nat)) = 0%nat).
      { intros acts [-> | (f & ->)]; reflexivity. }
      rewrite Hcalls.
      * split; [| lia]. split; [discriminate |].
        intros [[H _] | [H | [H _]]]; [| discriminate H | discriminate H].
        injection H as ->. contradiction.
      * destruct ((key =? "ArrowRight")%string && hasRenders a); [eauto |].
        destruct ((key =? "ArrowLeft")%string && hasRenders a); eauto.
  - cbn [enabled] in Hen.
    assert (Hlb : In target [LightboxOverlay; LightboxFrame; LightboxImage;
                             LightboxCloseButton] -> lightboxOpen s = true)
      by (intros Hin; apply (mounted_lightbox_open a s target Hin Hen)).
    destruct s as [i open]. cbn [lightboxOpen] in *.
    destruct target; unfold step; cbn;
      try (split; [split; [discriminate |] | lia];
           intros [[H _] | [H | [H _]]]; discriminate H);
      try (split; [split; auto | lia]).
    + (* MainOverlay *)
      unfold handleBackdropClick. cbn. destruct open; cbn.
      * split; [| lia]. split; [discriminate |].
        intros [[H _] | [H | [_ H]]]; discriminate H.
      * split; [| lia]. split; auto.
    + (* LightboxOverlay *)
      rewrite Hlb by (cbn; auto). unfold handleBackdropClick. cbn.
      split; [| lia]. split; [discriminate |].
      intros [[H _] | [H | [H _]]]; discriminate H.
Qed.

End Events.

Section Images.

Context {P : Platform}.

Local Open Scope Z_scope.

Lemma renderGallery_some (a : Apartment) (s : State) (g : Gallery) :
  renderGallery a s = Some g ->
  imageSrc g = renderAt a (currentImageIndex s)
  /\ exists l, renders a = Some l /\ l <> [].
Proof.
  unfold renderGallery. destruct (renders a) as [l |] eqn:Hr; [| discriminate].
  destruct (Z.ltb_spec 0 (Z.of_nat (List.length l))) as [Hpos | _];
    [| discriminate].
  intros [= <-]. split; [reflexivity |].
  exists l. split; [reflexivity |]. intros ->. cbn in Hpos. lia.
Qed.

(** X4.  A record whose [renders] is missing or empty never leaves the
    initial view state: no event that can occur moves the index or opens
    the lightbox. *)
Theorem X4_no_renders_no_state_change (a : Apartment) (s : State) :
  noRenders a -> reachable a s -> s = initialState.
Proof.
  intros Hno Hreach. induction Hreach as [| s ev _ IH Hen]; [reflexivity |].
  subst s. pose proof (noRenders_hasRenders a Hno) as Hr.
  destruct ev as [key | target].
  - unfold step. cbn [handle]. rewrite onKey_cases, Hr, !andb_false_r.
    destruct (key =? "Escape")%string; reflexivity.
  - cbn [enabled] in Hen. unfold mounted in Hen.
    rewrite (gallery_without_renders a initialState Hno) in Hen.
    destruct target; try discriminate Hen; reflexivity.
Qed.

(** X5.  For a record with at least one render, the image on screen is
    always one of the renders: in every reachable state the gallery shows
    [renders[currentImageIndex]], which is defined, and an open lightbox
    shows the same image. *)
Theorem X5_image_is_a_render (a : Apartment) (n : Z) (s : State) :
  rendersOfLength a n -> reachable a s ->
  exists l src,
    renders a = Some l /\ In src l
    /\ (exists g, gallery (render a s) = Some g /\ imageSrc g = Some src)
    /\ (lightboxOpen s = true ->
        lightbox (render a s) = Some {| fullscreenSrc := Some src |}).
Proof.
  intros Hn Hreach. pose proof (reachable_index a n s Hn Hreach) as Hi.
  destruct Hn as (l & Hr & Hne & ->).
  assert (Hlt : (Z.to_nat (currentImageIndex s) < List.length l)%nat) by lia.
  destruct (nth_error l (Z.to_nat (currentImageIndex s))) as [src |] eqn:Hnth;
    [| apply nth_error_None in Hnth; lia].
  assert (Hat : renderAt a (currentImageIndex s) = Some src).
  { unfold renderAt. rewrite Hr.
    destruct (Z.ltb_spec (currentImageIndex s) 0); [lia | exact Hnth]. }
  exists l, src. split; [exact Hr |].
  split; [apply (nth_error_In _ _ Hnth) |]. split.
  - cbn [render gallery]. unfold renderGallery. rewrite Hr.
    destruct (Z.ltb_spec 0 (Z.of_nat (List.length l))); [| lia].
    eexists. split; [reflexivity |]. exact Hat.
  - intros Hopen. cbn [render lightbox]. unfold renderLightbox.
    rewrite Hopen, Hr, <- Hat. reflexivity.
Qed.

(** X6.  Opening the lightbox, by a click on the gallery image or on the
    expand control, keeps the index, and the lightbox then shows the image
    the gallery was showing. *)
Theorem X6_lightbox_opens_on_current_image
  (a : Apartment) (s : State) (g : Gallery) (target : Element) :
  gallery (render a s) = Some g ->
  target = GalleryImage \/ target = ExpandButton ->
  step a s (Click target)
  = ({| currentImageIndex := currentImageIndex s; lightboxOpen := true |}, 0%nat)
  /\ lightbox (render a (fst (step a s (Click target))))
     = Some {| fullscreenSrc := imageSrc g |}.
Proof.
  intros Hg Ht. cbn [render gallery] in Hg.
  destruct (renderGallery_some a s g Hg) as (Hsrc & l & Hr & _).
  assert (Hstep : step a s (Click target)
                  = ({| currentImageIndex := currentImageIndex s;
                        lightboxOpen := true |}, 0%nat))
    by (destruct Ht as [-> | ->]; reflexivity).
  split; [exact Hstep |].
  rewrite Hstep. cbn [fst render lightbox]. unfold renderLightbox.
  cbn [lightboxOpen currentImageIndex]. rewrite Hr, Hsrc.
  unfold renderAt. rewrite Hr. reflexivity.
Qed.

(** X7.  Whenever a navigation button is on screen it does what the
    matching arrow key does: the next button acts as ArrowRight and the
    previous button as ArrowLeft. *)
Theorem X7_buttons_act_as_arrow_keys (a : Apartment) (s : State) :
  (mounted (render a s) NextButton = true ->
   step a s (Click NextButton) = step a s (KeyDown "ArrowRight"))
  /\ (mounted (render a s) PrevButton = true ->
      step a s (Click PrevButton) = step a s (KeyDown "ArrowLeft")).
Proof.
  split; intros Hm.
  - destruct (mounted_navigation a s NextButton (or_intror eq_refl) Hm)
      as [Hr _].
    rewrite arrowRight_step by exact Hr. reflexivity.
  - destruct (mounted_navigation a s PrevButton (or_introl eq_refl) Hm)
      as [Hr _].
    rewrite arrowLeft_step by exact Hr. reflexivity.
Qed.

(** X8.  The two updates of the index at the ends of the array: "next"
    adds one below the last position and goes from the last position to 0;
    "previous" subtracts one above 0 and goes from 0 to the last position.
    "Next" after "previous" is the identity. *)
Theorem X8_wrap_at_the_ends (n i : Z) :
  0 <= i < n ->
  nextIndex n i = (if i =? n - 1 then 0 else i + 1)
  /\ prevIndex n i = (if i =? 0 then n - 1 else i - 1)
  /\ nextIndex n (prevIndex n i) = i.
Proof.
  intros Hi.
  assert (Hnext : forall j, 0 <= j < n ->
                    nextIndex n j = if j =? n - 1 then 0 else j + 1).
  { intros j Hj. rewrite nextIndex_mod by lia.
    destruct (Z.eqb_spec j (n - 1)) as [-> | Hne].
    - replace (n - 1 + 1) with n by ring. apply Z_mod_same_full.
    - apply Z.mod_small. lia. }
  assert (Hprev : prevIndex n i = if i =? 0 then n - 1 else i - 1).
  { unfold prevIndex, Js.remainder. rewrite Z.rem_mod_nonneg by lia.
    destruct (Z.eqb_spec i 0) as [-> | Hne].
    - replace (0 - 1 + n) with (n - 1) by ring. apply Z.mod_small. lia.
    - replace (i - 1 + n) with (i - 1 + 1 * n) by ring.
      rewrite Z.mod_add by lia. apply Z.mod_small. lia. }
  split; [apply Hnext; exact Hi | split; [exact Hprev |]].
  rewrite Hprev.
  destruct (Z.eqb_spec i 0) as [-> | Hne].
  - rewrite Hnext by lia. rewrite Z.eqb_refl. reflexivity.
  - rewrite Hnext by lia.
    destruct (Z.eqb_spec (i - 1) (n - 1)); [lia | ring].
Qed.

(** X9.  With exactly one render the arrow keys leave every reachable
    state as it is. *)
Theorem X9_single_render_arrows_idle (a : Apartment) (s : State) (key : string) :
  rendersOfLength a 1 -> reachable a s ->
  key = "ArrowRight"%string \/ key = "ArrowLeft"%string ->
  step a s (KeyDown key) = (s, 0%nat).
Proof.
  intros Hn Hreach Hkey.
  pose proof (reachable_index a 1 s Hn Hreach) as Hi.
  destruct (rendersOfLength_length a 1 Hn) as (Hlen & _ & Hr).
  assert (H0 : currentImageIndex s = 0) by lia.
  destruct s as [i open]. cbn [currentImageIndex] in H0. subst i.
  destruct Hkey as [-> | ->].
  - rewrite arrowRight_step, Hlen by exact Hr. reflexivity.
  - rewrite arrowLeft_step, Hlen by exact Hr. reflexivity.
Qed.

(** X10.  Escape and an arrow key do not interfere: pressed in either
    order from any state they lead to the same view state and the same
    number of calls of [onClose]. *)
Theorem X10_escape_commutes_with_arrows (a : Apartment) (s : State) (key : string) :
  key = "ArrowRight"%string \/ key = "ArrowLeft"%string ->
  runEvents a [KeyDown "Escape"; KeyDown key] (s, 0%nat)
  = runEvents a [KeyDown key; KeyDown "Escape"] (s, 0%nat).
Proof.
  intros Hkey. destruct s as [i open]. cbn [runEvents fst snd].
  unfold step. cbn [handle]. rewrite !onKey_cases.
  destruct Hkey as [-> | ->]; cbn [String.eqb Ascii.eqb Bool.eqb andb];
    destruct (hasRenders a), open; reflexivity.
Qed.

End Images.

Section Lines.

Context {P : Platform}.

(** X11.  The details column is fixed by the classification, in this
    order: a commercial unit shows the area only, under the heading "Unit
    Details"; a studio shows bathrooms, area and price; any other unit shows
    bedrooms, bathrooms, area and price.  The area line is there in every
    case, a missing bathroom count is shown as "N/A", and no type is
    commercial and studio at once. *)
Theorem X11_details_by_classification (a : Apartment) (s : State) :
  let bath := BathroomLine match bathrooms a with
                           | Some b => inl b
                           | None => inr "N/A"%string
                           end in
  let areaLine := AreaLine (formatArea (area a)) in
  let priceLine := PriceLine (formatPrice (price a)) in
  details (render a s)
  = match classifyUnit a with
    | Commercial => [areaLine]
    | Studio => [bath; areaLine; priceLine]
    | Residential => [BedroomLine (bedrooms a); bath; areaLine; priceLine]
    end
  /\ (detailsHeading (render a s) = "Unit Details"%string
      <-> classifyUnit a = Commercial)
  /\ (detailsHeading (render a s) = "Apartment Details"%string
      <-> classifyUnit a <> Commercial)
  /\ isCommercial a && isStudio a = false.
Proof.
  cbv zeta. cbn [render details detailsHeading].
  unfold renderDetails, classifyUnit.
  assert (Hex : isCommercial a && isStudio a = false).
  { destruct (isCommercial a) eqn:Ec; [| reflexivity].
    destruct (isStudio a) eqn:Es; [| reflexivity].
    apply isCommercial_iff in Ec. apply isStudio_iff in Es.
    rewrite Es in Ec. destruct Ec as [H | H]; discriminate H. }
  split; [| split; [| split; [| exact Hex]]];
    destruct (isCommercial a), (isStudio a); cbn;
    try discriminate Hex; try reflexivity;
    split; intros H; try reflexivity; try discriminate H; try congruence.
Qed.

Lemma removeCommas_idempotent (s : string) :
  Js.removeCommas (Js.removeCommas s) = Js.removeCommas s.
Proof.
  induction s as [| c s IH]; [reflexivity |].
  cbn [Js.removeCommas]. destruct (Ascii.eqb c ",") eqn:E; [exact IH |].
  cbn [Js.removeCommas]. rewrite E, IH. reflexivity.
Qed.

Lemma removeCommas_onlyCommas (s : string) :
  JsText.onlyCommas s = true -> Js.removeCommas s = ""%string.
Proof.
  induction s as [| c s IH]; [reflexivity |].
  cbn [JsText.onlyCommas Js.removeCommas].
  destruct (Ascii.eqb c ","); [exact IH | discriminate].
Qed.

(** X12.  Commas carry no information for [toNumber]: two non-empty
    strings that agree once their commas are dropped parse to the same
    result, and when that result is a number [formatPrice] prints them
    alike.  Dropping the commas twice is dropping them once. *)
Theorem X12_commas_are_ignored (s t : string) :
  s <> ""%string -> t <> ""%string ->
  Js.removeCommas s = Js.removeCommas t ->
  toNumber (VString s) = toNumber (VString t)
  /\ (toNumber (VString s) <> None ->
      formatPrice (VString s) = formatPrice (VString t))
  /\ Js.removeCommas (Js.removeCommas s) = Js.removeCommas s.
Proof.
  intros Hs Ht Heq.
  assert (Hsame : toNumber (VString s) = toNumber (VString t))
    by (rewrite !toNumber_string by assumption; rewrite Heq; reflexivity).
  split; [exact Hsame | split; [| apply removeCommas_idempotent]].
  intros Hnum. unfold formatPrice. rewrite <- Hsame.
  destruct (toNumber (VString s)); [reflexivity | contradiction].
Qed.

(** X13.  [toNumber] never hands a [NaN] on that came out of a string, and
    gives [null] exactly for [undefined], [null], the empty string and a
    string whose [Number] is [NaN].  A value that is a number already is
    handed on unchecked, so [formatPrice] sends even [NaN] to the
    formatter and not to "N/A". *)
Theorem X13_toNumber_results (v : value) :
  (forall s n, v = VString s -> toNumber v = Some n ->
               s <> ""%string
               /\ n = toNumeric (Js.removeCommas s)
               /\ isNaN n = false)
  /\ (toNumber v = None
      <-> absent v
          \/ exists s, v = VString s
                       /\ (s = ""%string
                           \/ isNaN (toNumeric (Js.removeCommas s)) = true))
  /\ (forall n, v = VNumber n ->
                toNumber v = Some n /\ formatPrice v = Intl_format n).
Proof.
  split; [| split].
  - intros s n -> Hn. unfold toNumber in Hn.
    destruct (String.eqb_spec s ""); [discriminate Hn |].
    destruct (isNaN (toNumeric (Js.removeCommas s))) eqn:Hnan;
      [discriminate Hn |].
    injection Hn as <-. repeat split; assumption.
  - destruct v as [| | n | s].
    + split; [intros _; left; left; reflexivity | reflexivity].
    + split; [intros _; left; right; reflexivity | reflexivity].
    + split; [discriminate |].
      intros [[H | H] | (s & H & _)]; discriminate H.
    + unfold toNumber. destruct (String.eqb_spec s "") as [-> | Hne].
      * split; [| reflexivity]. intros _. right. exists ""%string. auto.
      * destruct (isNaN (toNumeric (Js.removeCommas s))) eqn:Hnan.
        -- split; [| reflexivity]. intros _. right. exists s. auto.
        -- split; [discriminate |].
           intros [[H | H] | (s' & [= <-] & [H | H])];
             [discriminate H | discriminate H | contradiction | congruence].
  - intros n ->. split; reflexivity.
Qed.

(** X14.  A price that consists of commas only passes the test for the
    empty string and reaches [Number] as the empty string.  Where [Number]
    of the empty string is a number, as it is in ECMAScript, such a price
    is printed as that number and neither as "N/A" nor as the text
    itself. *)
Theorem X14_commas_only_price (s : string) :
  s <> ""%string -> JsText.onlyCommas s = true ->
  isNaN (toNumeric ""%string) = false ->
  toNumber (VString s) = Some (toNumeric ""%string)
  /\ formatPrice (VString s) = Intl_format (toNumeric ""%string).
Proof.
  intros Hne Hcommas Hzero.
  assert (Hnum : toNumber (VString s) = Some (toNumeric ""%string)).
  { rewrite toNumber_string by exact Hne.
    rewrite (removeCommas_onlyCommas s Hcommas), Hzero. reflexivity. }
  split; [exact Hnum |]. unfold formatPrice. rewrite Hnum. reflexivity.
Qed.

End Lines.

Section Capitalize.

Lemma substring_all (s : string) : String.substring 0 (String.length s) s = s.
Proof.
  induction s as [| c s IH]; [reflexivity |].
  cbn [String.length String.substring]. rewrite IH. reflexivity.
Qed.

Lemma capitalize_cons (c : ascii) (rest : string) :
  capitalize (String c rest) = String (JsText.upperChar c) rest.
Proof.
  unfold capitalize, JsText.charAt, JsText.slice.
  cbn [String.eqb String.get String.length JsText.toUpperCase].
  replace (S (String.length rest) - 1)%nat with (String.length rest)
    by (cbn; rewrite Nat.sub_0_r; reflexivity).
  cbn [String.substring]. rewrite substring_all. reflexivity.
Qed.

Lemma upperChar_idempotent (c : ascii) :
  JsText.upperChar (JsText.upperChar c) = JsText.upperChar c.
Proof. destruct c as [[] [] [] [] [] [] [] []]; reflexivity. Qed.

Lemma lowerChar_upperChar (c : ascii) :
  Js.lowerChar (JsText.upperChar c) = Js.lowerChar c.
Proof. destruct c as [[] [] [] [] [] [] [] []]; reflexivity. Qed.

(** X15.  [capitalize] touches the first character only.  On a text that
    is empty or starts with a character of ASCII: the empty text stays
    empty; the result has the length of the text and the same characters
    after the first; capitalizing twice is capitalizing once; and the result
    equals the text up to case. *)
Theorem X15_capitalize_first_only (str : string) :
  JsText.asciiInitial str = true ->
  (str = ""%string -> capitalize str = ""%string)
  /\ String.length (capitalize str) = String.length str
  /\ JsText.slice (capitalize str) 1 = JsText.slice str 1
  /\ capitalize (capitalize str) = capitalize str
  /\ Js.toLowerCase (capitalize str) = Js.toLowerCase str.
Proof.
  intros _. destruct str as [| c rest].
  - repeat split; reflexivity.
  - rewrite !capitalize_cons, upperChar_idempotent.
    repeat split.
    + discriminate.
    + cbn [Js.toLowerCase]. rewrite lowerChar_upperChar. reflexivity.
Qed.

End Capitalize.

Section Listener.

Context {P : Platform}.

Lemma removeEventListener_only (l : Listener) : removeEventListener l [l] = [].
Proof.
  unfold removeEventListener. cbn [filter]. rewrite Nat.eqb_refl. reflexivity.
Qed.

Lemma mount_inStep : inStep mount.
Proof. split; reflexivity. Qed.

Lemma rerender_inStep (h : Host) (s : State) :
  keydown h = [installed h] ->
  inStep (rerender h s) /\ shown (rerender h s) = s.
Proof.
  intros Hone. unfold rerender, inStep.
  destruct (depsChanged (captured (installed h)) s) eqn:Hdeps;
    cbn [keydown installed shown captured].
  - rewrite Hone, removeEventListener_only. repeat split; reflexivity.
  - repeat split; [exact Hone |].
    unfold depsChanged in Hdeps. apply negb_false_iff in Hdeps.
    apply Bool.eqb_prop in Hdeps. exact Hdeps.
Qed.

Lemma dispatch_step (a : Apartment) (h : Host) (ev : Event) :
  inStep h ->
  dispatch a h ev
  = (rerender h (fst (step a (shown h) ev)), snd (step a (shown h) ev)).
Proof.
  intros [Hone Hcap]. unfold dispatch, step.
  destruct ev as [key | target]; cbn [handle]; [| reflexivity].
  rewrite Hone. cbn [flat_map]. rewrite app_nil_r.
  rewrite (onKey_reads_lightboxOpen a _ (shown h) key Hcap). reflexivity.
Qed.

Lemma dispatchAll_inStep (a : Apartment) (evs : list Event) :
  forall (h : Host) (c : nat),
    inStep h ->
    inStep (fst (dispatchAll a evs (h, c)))
    /\ (shown (fst (dispatchAll a evs (h, c))), snd (dispatchAll a evs (h, c)))
       = runEvents a evs (shown h, c).
Proof.
  induction evs as [| ev evs IH]; intros h c Hh.
  - split; [exact Hh | reflexivity].
  - cbn [dispatchAll runEvents fst snd].
    rewrite (dispatch_step a h ev Hh). cbn [fst snd].
    destruct (rerender_inStep h (fst (step a (shown h) ev)) (proj1 Hh))
      as [Hnext Hshown].
    destruct (IH _ (c + snd (step a (shown h) ev))%nat Hnext) as [Hfin Hrun].
    split; [exact Hfin |]. rewrite Hrun, Hshown. reflexivity.
Qed.

(** X16.  The key listener is a scoped resource: after mounting and any
    sequence of key presses and clicks exactly one [keydown] listener of the
    component is registered, it is the one created by the last run of the
    effect, and unmounting removes it, so that nothing is left behind. *)
Theorem X16_one_listener_none_after_unmount (a : Apartment) (evs : list Event) :
  let h := fst (dispatchAll a evs (mount, 0%nat)) in
  keydown h = [installed h]
  /\ List.length (keydown h) = 1%nat
  /\ unmount h = [].
Proof.
  cbv zeta.
  destruct (dispatchAll_inStep a evs mount 0%nat mount_inStep) as [[Hone _] _].
  split; [exact Hone |]. unfold unmount. rewrite Hone.
  split; [reflexivity | apply removeEventListener_only].
Qed.

(** X17.  The listener is never stale.  Running the closures that are
    registered, each with the variables of the render that created it and
    with the effect redone only when [lightboxOpen] differs, leads through
    any sequence of events to the same view state and the same number of
    calls of [onClose] as handlers that read the state of the moment; the
    closure in place has always captured the current [lightboxOpen]. *)
Theorem X17_listener_sees_current_state (a : Apartment) (evs : list Event) :
  let r := dispatchAll a evs (mount, 0%nat) in
  (shown (fst r), snd r) = runEvents a evs (initialState, 0%nat)
  /\ lightboxOpen (captured (installed (fst r))) = lightboxOpen (shown (fst r)).
Proof.
  cbv zeta.
  destruct (dispatchAll_inStep a evs mount 0%nat mount_inStep) as [[_ Hcap] Hrun].
  split; [exact Hrun | exact Hcap].
Qed.

End Listener.

Section Reach.

Context {P : Platform}.

Local Open Scope Z_scope.

Lemma length_append (s t : string) :
  String.length (s ++ t)%string = (String.length s + String.length t)%nat.
Proof.
  induction s as [| c s IH]; [reflexivity |].
  cbn [String.append String.length Nat.add]. rewrite IH. reflexivity.
Qed.

(** X18.  [formatArea] shows "N/A" exactly when the area is missing; the
    text of an area that is present always ends in " sq ft" and is never
    empty. *)
Theorem X18_area_placeholder (a : option Num) :
  (formatArea a = "N/A"%string <-> a = None)
  /\ (forall n, a = Some n ->
                formatArea a = (toLocaleString n ++ " sq ft")%string)
  /\ formatArea a <> ""%string.
Proof.
  assert (Hlen : forall n : Num,
             (6 <= String.length (toLocaleString n ++ " sq ft")%string)%nat)
    by (intros n; rewrite length_append; cbn [String.length]; lia).
  destruct a as [n |]; cbn [formatArea].
  - split; [| split].
    + split; [| discriminate]. intros H. specialize (Hlen n).
      rewrite H in Hlen. cbn in Hlen. lia.
    + intros n' [= <-]. reflexivity.
    + intros H. specialize (Hlen n). rewrite H in Hlen. cbn in Hlen. lia.
  - split; [| split]; [split; reflexivity | discriminate | discriminate].
Qed.

Lemma quiet_actions (s : State) (acts : list Action) :
  acts = [] \/ (exists f, acts = [SetCurrentImageIndex f]) ->
  lightboxOpen (fst (performAll acts (s, 0%nat))) = lightboxOpen s.
Proof. intros [-> | (f & ->)]; reflexivity. Qed.

(** X19.  For an event that can occur: an open lightbox is closed exactly
    by Escape, by a click on the lightbox backdrop or on the main backdrop
    itself, and by the lightbox close control; a closed lightbox is opened
    exactly by a click on the gallery image or on the expand control. *)
Theorem X19_lightbox_toggles_exactly_when (a : Apartment) (s : State) (ev : Event) :
  enabled a s ev = true ->
  (lightboxOpen s = true ->
   (lightboxOpen (fst (step a s ev)) = false
    <-> ev = KeyDown "Escape" \/ ev = Click MainOverlay
        \/ ev = Click LightboxOverlay \/ ev = Click LightboxCloseButton))
  /\ (lightboxOpen s = false ->
      (lightboxOpen (fst (step a s ev)) = true
       <-> ev = Click GalleryImage \/ ev = Click ExpandButton)).
Proof.
  intros Hen. destruct ev as [key | target].
  - unfold step. cbn [handle]. rewrite onKey_cases.
    destruct (String.eqb_spec key "Escape") as [-> | Hne].
    + destruct s as [i open]. cbn [lightboxOpen].
      split; intros ->; cbn.
      * split; [auto | reflexivity].
      * split; [discriminate |]. intros [H | H]; discriminate H.
    + rewrite quiet_actions
        by (destruct ((key =? "ArrowRight")%string && hasRenders a); [eauto |];
            destruct ((key =? "ArrowLeft")%string && hasRenders a); eauto).
      split; intros Hopen; rewrite Hopen.
      * split; [discriminate |].
        intros [H | [H | [H | H]]]; try discriminate H.
        injection H as ->. contradiction.
      * split; [discriminate |]. intros [H | H]; discriminate H.
  - cbn [enabled] in Hen.
    assert (Hlb : In target [LightboxOverlay; LightboxFrame; LightboxImage;
                             LightboxCloseButton] -> lightboxOpen s = true)
      by (intros Hin; apply (mounted_lightbox_open a s target Hin Hen)).
    destruct s as [i open]. cbn [lightboxOpen] in *.
    split; intros ->;
      destruct target; unfold step; cbn;
      try (assert (false = true) by (apply Hlb; cbn; auto); discriminate);
      try (split; [discriminate |];
           intros H; repeat destruct H as [H | H]; discriminate H);
      try (split; [auto 6 | reflexivity]).
Qed.

(** X20.  For a record with N >= 1 renders the reachable view states are
    exactly the states whose index lies in [0, N), with the lightbox open
    or closed: every image can be brought up, in the panel and in the
    lightbox. *)
Theorem X20_reachable_states (a : Apartment) (n : Z) (s : State) :
  rendersOfLength a n ->
  (reachable a s <-> 0 <= currentImageIndex s < n).
Proof.
  intros Hn. split; [apply reachable_index; exact Hn |].
  destruct (rendersOfLength_length a n Hn) as (Hlen & Hpos & Hr).
  assert (Hclosed : forall k : nat,
             Z.of_nat k < n ->
             reachable a {| currentImageIndex := Z.of_nat k;
                            lightboxOpen := false |}).
  { induction k as [| k IH]; intros Hk.
    - apply reach_init.
    - assert (Hprev : Z.of_nat k < n) by lia.
      pose proof (reach_step a _ (KeyDown "ArrowRight") (IH Hprev) eq_refl)
        as Hnext.
      rewrite arrowRight_step, Hlen in Hnext by exact Hr.
      cbn [fst currentImageIndex lightboxOpen] in Hnext.
      rewrite nextIndex_mod, Z.mod_small in Hnext by lia.
      replace (Z.of_nat (S k)) with (Z.of_nat k + 1) by lia. exact Hnext. }
  destruct s as [i open]. cbn [currentImageIndex]. intros Hi.
  specialize (Hclosed (Z.to_nat i)). rewrite Z2Nat.id in Hclosed by lia.
  specialize (Hclosed (proj2 Hi)).
  destruct open; [| exact Hclosed].
  assert (Hen : enabled a {| currentImageIndex := i; lightboxOpen := false |}
                  (Click ExpandButton) = true).
  { unfold enabled, mounted, render. cbn [gallery].
    destruct Hn as (l & Hl & _ & ->). unfold renderGallery. rewrite Hl.
    remember (Z.of_nat (List.length l)) as m eqn:Em. clear Em.
    destruct (Z.ltb_spec 0 m); [| lia]. cbn [controls].
    destruct (1 <? m); reflexivity. }
  exact (reach_step a _ (Click ExpandButton) Hclosed Hen).
Qed.

End Reach.

Module MoreSamples.

Import IntegerPlatform.

Local Open Scope Z_scope.

Lemma X1_other_keys_ignored_witness :
  "Enter"%string <> "Escape"%string
  /\ "Enter"%string <> "ArrowRight"%string
  /\ "Enter"%string <> "ArrowLeft"%string
  /\ step sampleFlat onSecond (KeyDown "Enter") = (onSecond, 0%nat).
Proof.
  assert (H1 : "Enter"%string <> "Escape"%string) by discriminate.
  assert (H2 : "Enter"%string <> "ArrowRight"%string) by discriminate.
  assert (H3 : "Enter"%string <> "ArrowLeft"%string) by discriminate.
  split; [exact H1 | split; [exact H2 | split; [exact H3 |]]].
  apply (X1_other_keys_ignored sampleFlat onSecond "Enter" H1 H2 H3).
Defined.

Lemma X3_onClose_exactly_when_witness :
  enabled sampleFlat initialState (Click MainOverlay) = true
  /\ snd (step sampleFlat initialState (Click MainOverlay)) = 1%nat.
Proof.
  split; [reflexivity |].
  apply (proj1 (X3_onClose_exactly_when sampleFlat initialState
                  (Click MainOverlay) eq_refl)).
  right. right. split; reflexivity.
Defined.

Lemma reachable_after_arrow (a : Apartment) (key : string) :
  reachable a (fst (step a initialState (KeyDown key))).
Proof. apply reach_step; [apply reach_init | reflexivity]. Defined.

Lemma X4_no_renders_no_state_change_witness :
  noRenders sampleShop
  /\ reachable sampleShop
       (fst (step sampleShop initialState (KeyDown "ArrowRight")))
  /\ fst (step sampleShop initialState (KeyDown "ArrowRight")) = initialState.
Proof.
  split; [exact Samples.sampleShop_noRenders |].
  split; [apply reachable_after_arrow |].
  apply (X4_no_renders_no_state_change sampleShop _
           Samples.sampleShop_noRenders
           (reachable_after_arrow sampleShop "ArrowRight")).
Defined.

Lemma X5_image_is_a_render_witness :
  rendersOfLength sampleFlat 3
  /\ reachable sampleFlat
       (fst (step sampleFlat initialState (KeyDown "ArrowLeft")))
  /\ exists l src,
       renders sampleFlat = Some l /\ In src l
       /\ (exists g,
             gallery (render sampleFlat
                        (fst (step sampleFlat initialState (KeyDown "ArrowLeft"))))
             = Some g
             /\ imageSrc g = Some src).
Proof.
  split; [exact Samples.sampleFlat_renders |].
  split; [apply reachable_after_arrow |].
  destruct (X5_image_is_a_render sampleFlat 3 _ Samples.sampleFlat_renders
              (reachable_after_arrow sampleFlat "ArrowLeft"))
    as (l & src & Hr & Hin & Hg & _).
  exists l, src. split; [exact Hr | split; [exact Hin | exact Hg]].
Defined.

Lemma X6_lightbox_opens_on_current_image_witness :
  exists g,
    gallery (render sampleFlat onSecond) = Some g
    /\ (ExpandButton = GalleryImage \/ ExpandButton = ExpandButton)
    /\ lightbox (render sampleFlat
                   (fst (step sampleFlat onSecond (Click ExpandButton))))
       = Some {| fullscreenSrc := imageSrc g |}.
Proof.
  eexists. split; [reflexivity |].
  split; [right; reflexivity |].
  apply (X6_lightbox_opens_on_current_image sampleFlat onSecond _ ExpandButton
           eq_refl (or_intror eq_refl)).
Defined.

Lemma X7_buttons_act_as_arrow_keys_witness :
  mounted (render sampleFlat onSecond) NextButton = true
  /\ step sampleFlat onSecond (Click NextButton)
     = step sampleFlat onSecond (KeyDown "ArrowRight").
Proof.
  split; [reflexivity |].
  apply (proj1 (X7_buttons_act_as_arrow_keys sampleFlat onSecond)).
  reflexivity.
Defined.

Lemma X8_wrap_at_the_ends_witness :
  0 <= 2 < 3 /\ nextIndex 3 2 = 0.
Proof.
  assert (Hi : 0 <= 2 < 3) by lia.
  split; [exact Hi |].
  apply (proj1 (X8_wrap_at_the_ends 3 2 Hi)).
Defined.

Lemma X9_single_render_arrows_idle_witness :
  rendersOfLength sampleStudio 1
  /\ reachable sampleStudio initialState
  /\ ("ArrowRight"%string = "ArrowRight"%string
      \/ "ArrowRight"%string = "ArrowLeft"%string)
  /\ step sampleStudio initialState (KeyDown "ArrowRight") = (initialState, 0%nat).
Proof.
  split; [exact Samples.sampleStudio_renders |].
  split; [apply reach_init |].
  split; [left; reflexivity |].
  apply (X9_single_render_arrows_idle sampleStudio initialState "ArrowRight"
           Samples.sampleStudio_renders (reach_init sampleStudio)
           (or_introl eq_refl)).
Defined.

Lemma X10_escape_commutes_with_arrows_witness :
  ("ArrowLeft"%string = "ArrowRight"%string
   \/ "ArrowLeft"%string = "ArrowLeft"%string)
  /\ runEvents sampleFlat [KeyDown "Escape"; KeyDown "ArrowLeft"]
       (openedOnFirst, 0%nat)
     = runEvents sampleFlat [KeyDown "ArrowLeft"; KeyDown "Escape"]
         (openedOnFirst, 0%nat).
Proof.
  split; [right; reflexivity |].
  apply (X10_escape_commutes_with_arrows sampleFlat openedOnFirst "ArrowLeft"
           (or_intror eq_refl)).
Defined.

Lemma X12_commas_are_ignored_witness :
  "1,250,000"%string <> ""%string
  /\ "12,50,000"%string <> ""%string
  /\ Js.removeCommas "1,250,000" = Js.removeCommas "12,50,000"
  /\ toNumber (VString "1,250,000") = toNumber (VString "12,50,000").
Proof.
  assert (Hs : "1,250,000"%string <> ""%string) by discriminate.
  assert (Ht : "12,50,000"%string <> ""%string) by discriminate.
  split; [exact Hs | split; [exact Ht | split; [reflexivity |]]].
  apply (proj1 (X12_commas_are_ignored (P := platform)
                  "1,250,000" "12,50,000" Hs Ht eq_refl)).
Defined.

Lemma X13_toNumber_results_witness :
  toNumber (VString "1,250,000") = Some (Int 1250000)
  /\ isNaN (Int 1250000) = false.
Proof.
  split; [reflexivity |].
  apply (proj1 (X13_toNumber_results (P := platform) (VString "1,250,000"))
           "1,250,000"%string (Int 1250000) eq_refl eq_refl).
Defined.

Lemma X14_commas_only_price_witness :
  ",,"%string <> ""%string
  /\ JsText.onlyCommas ",," = true
  /\ isNaN (toNumeric "") = false
  /\ toNumber (VString ",,") = Some (Int 0).
Proof.
  assert (Hne : ",,"%string <> ""%string) by discriminate.
  split; [exact Hne | split; [reflexivity | split; [reflexivity |]]].
  apply (proj1 (X14_commas_only_price (P := platform) ",," Hne eq_refl eq_refl)).
Defined.

Lemma X15_capitalize_first_only_witness :
  JsText.asciiInitial "ground" = true
  /\ capitalize (capitalize "ground") = capitalize "ground".
Proof.
  split; [reflexivity |].
  apply (X15_capitalize_first_only "ground" eq_refl).
Defined.

Lemma X19_lightbox_toggles_exactly_when_witness :
  enabled sampleFlat openedOnFirst (Click LightboxCloseButton) = true
  /\ lightboxOpen openedOnFirst = true
  /\ lightboxOpen (fst (step sampleFlat openedOnFirst (Click LightboxCloseButton)))
     = false.
Proof.
  split; [reflexivity | split; [reflexivity |]].
  apply (proj1 (X19_lightbox_toggles_exactly_when sampleFlat openedOnFirst
                  (Click LightboxCloseButton) eq_refl) eq_refl).
  right. right. right. reflexivity.
Defined.

Lemma X20_reachable_states_witness :
  rendersOfLength sampleFlat 3
  /\ 0 <= currentImageIndex {| currentImageIndex := 2; lightboxOpen := true |} < 3
  /\ reachable sampleFlat {| currentImageIndex := 2; lightboxOpen := true |}.
Proof.
  assert (Hi : 0 <= currentImageIndex
                      {| currentImageIndex := 2; lightboxOpen := true |} < 3)
    by (cbn; lia).
  split; [exact Samples.sampleFlat_renders | split; [exact Hi |]].
  apply (proj2 (X20_reachable_states sampleFlat 3 _ Samples.sampleFlat_renders)).
  exact Hi.
Defined.

End MoreSamples.
